(** * Nested-axle camera: vector kernel, two-angle directions, camera state machine

    A shallow embedding of [utils.js], [geometry.js] and [NA3DCamera.js].

    Numbers.  A JavaScript number is modelled as a real number: [+], [-], [*],
    [/], [Math.sqrt], [Math.cos], [Math.sin], [Math.acos] and [Math.abs] are
    the operations of [R].  Rounding, infinities and NaN are outside the model;
    every statement below is a statement about the arithmetic the program
    text denotes.

    Objects.  A [Vector3] is a mutable object in the source.  Every field of
    the camera holds an object of its own (each assignment stores the result
    of [new Vector3], [copy()] or a pure operator), so an in-place method is
    modelled as a function returning the new value of its receiver. *)

From Stdlib Require Import Reals Lra Bool List.
From Stdlib Require Import Psatz RNsatz.
Import ListNotations.

Local Open Scope R_scope.

(** ** Comparisons as booleans *)

Definition Rleb (a b : R) : bool := if Rle_dec a b then true else false.
Definition Rltb (a b : R) : bool := if Rlt_dec a b then true else false.

(** ** utils.js *)

Module Utils.

(** [export const epsilon = 1e-8] *)
Definition epsilon : R := / 100000000.

(** [lerp(from, to, t)] *)
Definition lerp (from to t : R) : R := (to - from) * t + from.

(** [clamp(low, x, high)] *)
Definition clamp (low x high : R) : R :=
  if Rleb x low then low
  else if Rleb high x then high
  else x.

(** [isZero(x)]: [Math.abs(x) <= epsilon] *)
Definition isZero (x : R) : bool := Rleb (Rabs x) epsilon.

(** [radToDeg(rad)] *)
Definition radToDeg (rad : R) : R := rad * (180 / PI).

End Utils.

(** ** geometry.js: class Vector3 *)

Module Vector3.

Record t : Type := mk { x : R; y : R; z : R }.

Definition RIGHT : t := mk 1 0 0.
Definition FRONT : t := mk 0 1 0.
Definition UP    : t := mk 0 0 1.

Definition cross (a b : t) : t :=
  mk (y a * z b - z a * y b)
     (z a * x b - x a * z b)
     (x a * y b - y a * x b).

Definition dot (a b : t) : R := x a * x b + y a * y b + z a * z b.

Definition lerp (from to : t) (k : R) : t :=
  mk (Utils.lerp (x from) (x to) k)
     (Utils.lerp (y from) (y to) k)
     (Utils.lerp (z from) (z to) k).

(** the vectors must be normalized *)
Definition angleBetween (a b : t) : R := acos (dot a b).

Definition signedAngleBetween (from to rotationAxis : t) : R :=
  let ang := angleBetween from to in
  if Rltb (dot (cross from to) rotationAxis) 0 then - ang else ang.

Definition isZero (v : t) : bool :=
  Utils.isZero (x v) && Utils.isZero (y v) && Utils.isZero (z v).

Definition opposite (v : t) : t := mk (- x v) (- y v) (- z v).

(** [increaseBy] (in place) and [increasedBy] (pure) compute the same value. *)
Definition increasedBy (u v : t) : t := mk (x u + x v) (y u + y v) (z u + z v).
Definition increaseBy (u v : t) : t := increasedBy u v.

Definition times (v : t) (a : R) : t := mk (a * x v) (a * y v) (a * z v).

Definition decreasedBy (u v : t) : t := mk (x u - x v) (y u - y v) (z u - z v).
Definition decreaseBy (u v : t) : t := decreasedBy u v.

(** [difference(from, to)]: [to.increasedBy(from.times(-1))] *)
Definition difference (from to : t) : t := increasedBy to (times from (-1)).

Definition norm (v : t) : R := sqrt (x v * x v + y v * y v + z v * z v).

(** [normalize()]: the receiver after the call. *)
Definition normalize (v : t) : t :=
  if isZero v then v
  else
    let norm_ := norm v in
    mk (x v / norm_) (y v / norm_) (z v / norm_).

Definition sqrDistanceTo (u other : t) : R :=
  let diff := difference u other in dot diff diff.

Definition distanceTo (u other : t) : R := norm (difference u other).

(** [rotateAboutOrthogonal(other, radians)]: the receiver after the call. *)
Definition rotateAboutOrthogonal (u other : t) (radians : R) : t :=
  if isZero u then u
  else
    let z_ := cross other u in
    increasedBy (times u (cos radians)) (times z_ (sin radians)).

(** [rotateAbout(other, radians)]: the receiver after the call.  The early
    [return] leaves the receiver as it was. *)
Definition rotateAbout (u other : t) (radians : R) : t :=
  let a := u in
  let b := other in
  let aParallel := times b (dot a b / dot b b) in
  let aOrth := increasedBy a (times aParallel (-1)) in
  let w := cross b aOrth in
  let aOrthNorm := norm aOrth in
  if Rltb aOrthNorm Utils.epsilon then u
  else
    let x1 := cos radians / aOrthNorm in
    let x2 := sin radians / norm w in
    let aOrthRotated :=
      times (increasedBy (times aOrth x1) (times w x2)) aOrthNorm in
    increasedBy aOrthRotated aParallel.

(** [projectedOntoVector(v)] *)
Definition projectedOntoVector (u v : t) : t := times v (dot u v / dot v v).

Definition copy (v : t) : t := mk (x v) (y v) (z v).

End Vector3.

(** The two parts into which [rotateAbout] splits its receiver: its local
    constants [aParallel] and [aOrth]. *)
Definition aParallel (a b : Vector3.t) : Vector3.t :=
  Vector3.times b (Vector3.dot a b / Vector3.dot b b).

Definition aOrth (a b : Vector3.t) : Vector3.t :=
  Vector3.increasedBy a (Vector3.times (aParallel a b) (-1)).

(** ** geometry.js: class Direction2 *)

Module Direction2.

Record t : Type := mk { h : R; v : R }.

(** [static fromVector3(u, vertical, horizontal)] *)
Definition fromVector3 (u vertical horizontal : Vector3.t) : t :=
  let v_ := PI / 2 - Vector3.angleBetween u vertical in
  let right := Vector3.cross u vertical in
  let hDirection := Vector3.rotateAboutOrthogonal (Vector3.copy u) right (- v_) in
  let h_ := Vector3.signedAngleBetween horizontal hDirection vertical in
  mk h_ v_.

(** [toVector3(vertical, horizontal)] *)
Definition toVector3 (d : t) (vertical horizontal : Vector3.t) : Vector3.t :=
  let result := Vector3.rotateAboutOrthogonal (Vector3.copy horizontal) vertical (h d) in
  let right := Vector3.cross result vertical in
  Vector3.rotateAboutOrthogonal result right (v d).

Definition rotateLeft (d : t) (radians : R) : t := mk (h d + radians) (v d).
Definition rotateUp (d : t) (radians : R) : t := mk (h d) (v d + radians).
Definition rotateBy (d : t) (hDelta vDelta : R) : t := mk (h d + hDelta) (v d + vDelta).
Definition rotate (d rotation : t) : t := mk (h d + h rotation) (v d + v rotation).
Definition opposite (d : t) : t := mk (h d + PI) (- v d).

End Direction2.

(** ** geometry.js: planes and rays *)

Module Plane.
Record t : Type := mk { n : Vector3.t; d : R }.
End Plane.

Module Ray.
(** ray interface: [{ P: Vector3, v: Vector3 }] *)
Record t : Type := mk { P : Vector3.t; v : Vector3.t }.
End Ray.

(** [rectToPlane(rect)] with [rect = [A, B, C]] *)
Definition rectToPlane (A B C : Vector3.t) : Plane.t :=
  let n := Vector3.cross (Vector3.difference A B) (Vector3.difference A C) in
  let d := - Vector3.dot n A in
  Plane.mk n d.

(** [rayPlaneIntersection(ray, plane)]; [None] is the source's [null]. *)
Definition rayPlaneIntersection (ray : Ray.t) (plane : Plane.t) : option Vector3.t :=
  let den := Vector3.dot (Plane.n plane) (Ray.v ray) in
  if Utils.isZero den then None
  else
    let t := - (Vector3.dot (Plane.n plane) (Ray.P ray) + Plane.d plane) / den in
    if Rltb t 0 then None
    else Some (Vector3.increasedBy (Ray.P ray) (Vector3.times (Ray.v ray) t)).

(** The parameter of the intersection, as [rayPlaneIntersection] computes it. *)
Definition rayParameter (ray : Ray.t) (plane : Plane.t) : R :=
  - (Vector3.dot (Plane.n plane) (Ray.P ray) + Plane.d plane)
    / Vector3.dot (Plane.n plane) (Ray.v ray).

(** ** NA3DCamera.js *)

Module NA3DCamera.

Record t : Type := mk {
  position : Vector3.t;
  pedestal : Vector3.t;
  horizontal : Vector3.t;
  look : Vector3.t;
  right : Vector3.t;
  up : Vector3.t;
  t_ : R;
  s_ : R;
  xAng : R;
  yAng : R;
  targetXang : R;
  targetYang : R;
  rInclinAng : R;
  fInclinAng : R;
  targetRInclinAng : R;
  targetFInclinAng : R;
  targetPosition : Vector3.t;
  maxUpAng : R;
  minUpAng : R
}.

(** Field updates, one per private field the methods assign. *)
Definition set_position (c : t) (p : Vector3.t) : t :=
  mk p (pedestal c) (horizontal c) (look c) (right c) (up c) (t_ c) (s_ c)
     (xAng c) (yAng c) (targetXang c) (targetYang c) (rInclinAng c) (fInclinAng c)
     (targetRInclinAng c) (targetFInclinAng c) (targetPosition c) (maxUpAng c) (minUpAng c).
Definition set_pedestal (c : t) (p : Vector3.t) : t :=
  mk (position c) p (horizontal c) (look c) (right c) (up c) (t_ c) (s_ c)
     (xAng c) (yAng c) (targetXang c) (targetYang c) (rInclinAng c) (fInclinAng c)
     (targetRInclinAng c) (targetFInclinAng c) (targetPosition c) (maxUpAng c) (minUpAng c).
Definition set_look (c : t) (l : Vector3.t) : t :=
  mk (position c) (pedestal c) (horizontal c) l (right c) (up c) (t_ c) (s_ c)
     (xAng c) (yAng c) (targetXang c) (targetYang c) (rInclinAng c) (fInclinAng c)
     (targetRInclinAng c) (targetFInclinAng c) (targetPosition c) (maxUpAng c) (minUpAng c).
Definition set_right (c : t) (r : Vector3.t) : t :=
  mk (position c) (pedestal c) (horizontal c) (look c) r (up c) (t_ c) (s_ c)
     (xAng c) (yAng c) (targetXang c) (targetYang c) (rInclinAng c) (fInclinAng c)
     (targetRInclinAng c) (targetFInclinAng c) (targetPosition c) (maxUpAng c) (minUpAng c).
Definition set_up (c : t) (u : Vector3.t) : t :=
  mk (position c) (pedestal c) (horizontal c) (look c) (right c) u (t_ c) (s_ c)
     (xAng c) (yAng c) (targetXang c) (targetYang c) (rInclinAng c) (fInclinAng c)
     (targetRInclinAng c) (targetFInclinAng c) (targetPosition c) (maxUpAng c) (minUpAng c).
Definition set_t_s (c : t) (t' s' : R) : t :=
  mk (position c) (pedestal c) (horizontal c) (look c) (right c) (up c) t' s'
     (xAng c) (yAng c) (targetXang c) (targetYang c) (rInclinAng c) (fInclinAng c)
     (targetRInclinAng c) (targetFInclinAng c) (targetPosition c) (maxUpAng c) (minUpAng c).
Definition set_xAng (c : t) (a : R) : t :=
  mk (position c) (pedestal c) (horizontal c) (look c) (right c) (up c) (t_ c) (s_ c)
     a (yAng c) (targetXang c) (targetYang c) (rInclinAng c) (fInclinAng c)
     (targetRInclinAng c) (targetFInclinAng c) (targetPosition c) (maxUpAng c) (minUpAng c).
Definition set_yAng (c : t) (a : R) : t :=
  mk (position c) (pedestal c) (horizontal c) (look c) (right c) (up c) (t_ c) (s_ c)
     (xAng c) a (targetXang c) (targetYang c) (rInclinAng c) (fInclinAng c)
     (targetRInclinAng c) (targetFInclinAng c) (targetPosition c) (maxUpAng c) (minUpAng c).
Definition set_targetXang (c : t) (a : R) : t :=
  mk (position c) (pedestal c) (horizontal c) (look c) (right c) (up c) (t_ c) (s_ c)
     (xAng c) (yAng c) a (targetYang c) (rInclinAng c) (fInclinAng c)
     (targetRInclinAng c) (targetFInclinAng c) (targetPosition c) (maxUpAng c) (minUpAng c).
Definition set_targetYang (c : t) (a : R) : t :=
  mk (position c) (pedestal c) (horizontal c) (look c) (right c) (up c) (t_ c) (s_ c)
     (xAng c) (yAng c) (targetXang c) a (rInclinAng c) (fInclinAng c)
     (targetRInclinAng c) (targetFInclinAng c) (targetPosition c) (maxUpAng c) (minUpAng c).
Definition set_rInclinAng (c : t) (a : R) : t :=
  mk (position c) (pedestal c) (horizontal c) (look c) (right c) (up c) (t_ c) (s_ c)
     (xAng c) (yAng c) (targetXang c) (targetYang c) a (fInclinAng c)
     (targetRInclinAng c) (targetFInclinAng c) (targetPosition c) (maxUpAng c) (minUpAng c).
Definition set_fInclinAng (c : t) (a : R) : t :=
  mk (position c) (pedestal c) (horizontal c) (look c) (right c) (up c) (t_ c) (s_ c)
     (xAng c) (yAng c) (targetXang c) (targetYang c) (rInclinAng c) a
     (targetRInclinAng c) (targetFInclinAng c) (targetPosition c) (maxUpAng c) (minUpAng c).
Definition set_targetRInclinAng (c : t) (a : R) : t :=
  mk (position c) (pedestal c) (horizontal c) (look c) (right c) (up c) (t_ c) (s_ c)
     (xAng c) (yAng c) (targetXang c) (targetYang c) (rInclinAng c) (fInclinAng c)
     a (targetFInclinAng c) (targetPosition c) (maxUpAng c) (minUpAng c).
Definition set_targetFInclinAng (c : t) (a : R) : t :=
  mk (position c) (pedestal c) (horizontal c) (look c) (right c) (up c) (t_ c) (s_ c)
     (xAng c) (yAng c) (targetXang c) (targetYang c) (rInclinAng c) (fInclinAng c)
     (targetRInclinAng c) a (targetPosition c) (maxUpAng c) (minUpAng c).
Definition set_targetPosition (c : t) (p : Vector3.t) : t :=
  mk (position c) (pedestal c) (horizontal c) (look c) (right c) (up c) (t_ c) (s_ c)
     (xAng c) (yAng c) (targetXang c) (targetYang c) (rInclinAng c) (fInclinAng c)
     (targetRInclinAng c) (targetFInclinAng c) p (maxUpAng c) (minUpAng c).

(** [#changeHand(v)] and [#changeAngleHand(a)] *)
Definition changeHand (v : Vector3.t) : Vector3.t :=
  Vector3.mk (Vector3.x v) (- Vector3.y v) (Vector3.z v).
Definition changeAngleHand (a : R) : R := - a.

(** Getters aimed at the host. *)
Definition construct3Position (c : t) : Vector3.t := changeHand (position c).
Definition construct3Forward (c : t) : Vector3.t := changeHand (look c).
Definition construct3Up (c : t) : Vector3.t := Vector3.copy (up c).
Definition construct3Right (c : t) : Vector3.t := changeHand (right c).
Definition xAngle (c : t) : R := changeAngleHand (xAng c).
Definition xAngleDegrees (c : t) : R := Utils.radToDeg (xAngle c).
Definition yAngle (c : t) : R := yAng c.
Definition forwardInclination (c : t) : R := fInclinAng c.
Definition rightInclination (c : t) : R := rInclinAng c.

Definition getSmoothness (c : t) : R := 11 / 10 - (t_ c * (11 / 10) - 1 / 10).

(** [setSmoothness(look, position)] *)
Definition setSmoothness (c : t) (look_ position_ : R) : t :=
  let min := 1 / 1000 in
  let max := 999 / 1000 in
  set_t_s c (1 - Utils.clamp min look_ max) (1 - Utils.clamp min position_ max).

(** [#updateRight()], [#updateUp()], [#updateAngles()] *)
Definition updateRight (c : t) : t :=
  set_right c (Vector3.normalize (Vector3.cross (look c) (pedestal c))).

Definition updateUp (c : t) : t :=
  set_up c (Vector3.cross (right c) (look c)).

Definition updateAngles (c : t) : t :=
  let direction := Direction2.fromVector3 (look c) (pedestal c) (horizontal c) in
  let c := set_xAng c (Direction2.h direction) in
  let c := set_yAng c (Direction2.v direction) in
  let c := set_targetXang c (xAng c) in
  set_targetYang c (yAng c).

(** [constructor(position, pedestal, look, xAng = 0, maxAbsUpAng = Math.PI/3)].
    The field initialisers [#t = 1] and [#s = 1] run first. *)
Definition new (position_ pedestal_ look_ : Vector3.t) (xAng_ maxAbsUpAng : R) : t :=
  let position0 := changeHand position_ in
  let pedestal0 := Vector3.normalize (changeHand pedestal_) in
  let look0 := Vector3.normalize (changeHand look_) in
  let right0 := Vector3.normalize (Vector3.cross look0 pedestal0) in
  let up0 := Vector3.cross right0 look0 in
  let yAng0 := PI / 2 - Vector3.angleBetween pedestal0 look0 in
  let xAng0 := changeAngleHand xAng_ in
  let horizontal0 :=
    Vector3.rotateAboutOrthogonal (Vector3.copy look0) right0 (- yAng0) in
  let horizontal1 := Vector3.rotateAboutOrthogonal horizontal0 pedestal0 (- xAng0) in
  mk position0 pedestal0 horizontal1 look0 right0 up0 1 1
     xAng0 yAng0 xAng0 yAng0 0 0 0 0 (Vector3.copy position0)
     maxAbsUpAng (- maxAbsUpAng).

Definition defaultMaxAbsUpAng : R := PI / 3.

(** [setLook(look)] *)
Definition setLook (c : t) (look_ : Vector3.t) : t :=
  let c := set_look c (Vector3.normalize (changeHand look_)) in
  let c := updateAngles c in
  let c := updateRight c in
  updateUp c.

(** [setLookSmooth(look)] *)
Definition setLookSmooth (c : t) (look_ : Vector3.t) : t :=
  let look1 := Vector3.normalize (changeHand look_) in
  let direction := Direction2.fromVector3 look1 (pedestal c) (horizontal c) in
  let c := set_targetXang c (Direction2.h direction) in
  set_targetYang c (Direction2.v direction).

(** [lookAt(target)] and [lookAtSmooth(target)] *)
Definition lookAt (c : t) (target : Vector3.t) : t :=
  setLook c (Vector3.difference (changeHand (position c)) target).

Definition lookAtSmooth (c : t) (target : Vector3.t) : t :=
  setLookSmooth c (Vector3.difference (changeHand (position c)) target).

(** [rotateLeft(radians)] *)
Definition rotateLeft (c : t) (radians : R) : t :=
  set_targetXang c (targetXang c + radians).

(** [#actuallyRotateLeft(radians)] *)
Definition actuallyRotateLeft (c : t) (radians : R) : t :=
  if Utils.isZero radians then c
  else
    let c := set_look c (Vector3.rotateAbout (look c) (pedestal c) radians) in
    let c := updateRight c in
    let c := updateUp c in
    set_xAng c (xAng c + radians).

(** [rotateUp(radians)] *)
Definition rotateUp (c : t) (radians : R) : t :=
  set_targetYang c (Utils.clamp (minUpAng c) (targetYang c + radians) (maxUpAng c)).

(** [#actuallyRotateUp(radians)] *)
Definition actuallyRotateUp (c : t) (radians : R) : t :=
  if Utils.isZero radians then c
  else
    let c :=
      if Rltb (maxUpAng c) (yAng c + radians) then
        let c := set_look c
          (Vector3.rotateAboutOrthogonal (look c) (right c) (maxUpAng c - yAng c)) in
        set_yAng c (maxUpAng c)
      else if Rltb (yAng c + radians) (minUpAng c) then
        let c := set_look c
          (Vector3.rotateAboutOrthogonal (look c) (right c) (minUpAng c - yAng c)) in
        set_yAng c (minUpAng c)
      else
        let c := set_look c
          (Vector3.rotateAboutOrthogonal (look c) (right c) radians) in
        set_yAng c (yAng c + radians) in
    updateUp c.

(** [inclineRight(radians)] and [#actuallyInclineRight(radians)] *)
Definition inclineRight (c : t) (radians : R) : t :=
  set_targetRInclinAng c (targetRInclinAng c + radians).

Definition actuallyInclineRight (c : t) (radians : R) : t :=
  if Rltb (Rabs radians) Utils.epsilon then c
  else
    let axis := Vector3.cross (pedestal c) (right c) in
    let c := set_pedestal c (Vector3.rotateAboutOrthogonal (pedestal c) axis radians) in
    let c := set_look c (Vector3.rotateAbout (look c) axis radians) in
    let c := updateRight c in
    let c := updateUp c in
    set_rInclinAng c (rInclinAng c + radians).

(** [inclineForward(radians)] and [#actuallyInclineForward(radians)] *)
Definition inclineForward (c : t) (radians : R) : t :=
  set_targetFInclinAng c (targetFInclinAng c + radians).

Definition actuallyInclineForward (c : t) (radians : R) : t :=
  if Rltb (Rabs radians) Utils.epsilon then c
  else
    let c := set_pedestal c (Vector3.rotateAbout (pedestal c) (right c) radians) in
    let c := set_look c (Vector3.rotateAboutOrthogonal (look c) (right c) radians) in
    let c := updateUp c in
    set_fInclinAng c (fInclinAng c + radians).

(** [#setXangle], [#setYangle], [#setRInclinAng], [#setFInclinAng] *)
Definition setXangle (c : t) (radians : R) : t :=
  let delta := radians - xAng c in actuallyRotateLeft c delta.
Definition setYangle (c : t) (radians : R) : t :=
  let delta := radians - yAng c in actuallyRotateUp c delta.
Definition setRInclinAng (c : t) (radians : R) : t :=
  let delta := radians - rInclinAng c in actuallyInclineRight c delta.
Definition setFInclinAng (c : t) (radians : R) : t :=
  let delta := radians - fInclinAng c in actuallyInclineForward c delta.

(** [setPosition(position)] and [setPositionSmooth(position)] *)
Definition setPosition (c : t) (position_ : Vector3.t) : t :=
  let c := set_position c (changeHand position_) in
  set_targetPosition c (Vector3.copy (position c)).

Definition setPositionSmooth (c : t) (position_ : Vector3.t) : t :=
  set_targetPosition c (changeHand position_).

(** [moveRight(amount)], [moveForward(amount)], [moveUp(amount)] *)
Definition moveRight (c : t) (amount : R) : t :=
  set_position c (Vector3.increaseBy (position c) (Vector3.times (right c) amount)).
Definition moveForward (c : t) (amount : R) : t :=
  set_position c (Vector3.increaseBy (position c) (Vector3.times (look c) amount)).
Definition moveUp (c : t) (amount : R) : t :=
  set_position c (Vector3.increaseBy (position c) (Vector3.times (up c) amount)).

(** The four angle steps of [update()], in the order of the source. *)
Definition updateX (c : t) : t :=
  setXangle c (Utils.lerp (xAng c) (targetXang c) (t_ c)).
Definition updateY (c : t) : t :=
  setYangle c (Utils.lerp (yAng c) (targetYang c) (t_ c)).
Definition updateR (c : t) : t :=
  setRInclinAng c (Utils.lerp (rInclinAng c) (targetRInclinAng c) (t_ c)).
Definition updateF (c : t) : t :=
  setFInclinAng c (Utils.lerp (fInclinAng c) (targetFInclinAng c) (t_ c)).

(** [update()] *)
Definition update (c : t) : t :=
  let c := updateX c in
  let c := updateY c in
  let c := updateR c in
  let c := updateF c in
  set_position c (Vector3.lerp (position c) (targetPosition c) (s_ c)).

(** The public mutators, as requests a host can issue. *)
Inductive op : Type :=
| SetSmoothness (look_ position_ : R)
| SetLook (look_ : Vector3.t)
| SetLookSmooth (look_ : Vector3.t)
| LookAt (target : Vector3.t)
| LookAtSmooth (target : Vector3.t)
| RotateLeft (radians : R)
| RotateUp (radians : R)
| InclineRight (radians : R)
| InclineForward (radians : R)
| SetPosition (position_ : Vector3.t)
| SetPositionSmooth (position_ : Vector3.t)
| MoveRight (amount : R)
| MoveForward (amount : R)
| MoveUp (amount : R)
| Update.

Definition apply (c : t) (o : op) : t :=
  match o with
  | SetSmoothness l p => setSmoothness c l p
  | SetLook l => setLook c l
  | SetLookSmooth l => setLookSmooth c l
  | LookAt p => lookAt c p
  | LookAtSmooth p => lookAtSmooth c p
  | RotateLeft r => rotateLeft c r
  | RotateUp r => rotateUp c r
  | InclineRight r => inclineRight c r
  | InclineForward r => inclineForward c r
  | SetPosition p => setPosition c p
  | SetPositionSmooth p => setPositionSmooth c p
  | MoveRight a => moveRight c a
  | MoveForward a => moveForward c a
  | MoveUp a => moveUp c a
  | Update => update c
  end.

Definition run (c : t) (os : list op) : t := fold_left apply os c.

End NA3DCamera.

(** * Vocabulary of the statements *)

Import Vector3 (x, y, z).
Import NA3DCamera (position, pedestal, horizontal, look, right, up, t_, s_,
  xAng, yAng, targetXang, targetYang, rInclinAng, fInclinAng,
  targetRInclinAng, targetFInclinAng, targetPosition, maxUpAng, minUpAng).

(** The fields no [#actually...] method assigns. *)
Definition same_controls (c c' : NA3DCamera.t) : Prop :=
  position c' = position c /\ targetPosition c' = targetPosition c /\
  t_ c' = t_ c /\ s_ c' = s_ c /\
  targetXang c' = targetXang c /\ targetYang c' = targetYang c /\
  targetRInclinAng c' = targetRInclinAng c /\ targetFInclinAng c' = targetFInclinAng c /\
  maxUpAng c' = maxUpAng c /\ minUpAng c' = minUpAng c /\
  horizontal c' = horizontal c.

(** The state after the four angle steps of [update()]. *)
Definition angleSteps (c : NA3DCamera.t) : NA3DCamera.t :=
  NA3DCamera.updateF (NA3DCamera.updateR (NA3DCamera.updateY (NA3DCamera.updateX c))).

(** What a translation helper does, seen from the camera before the call:
    [m] is the camera after moving by [amount] along [basis]. *)
Definition moved_without_target (c m : NA3DCamera.t) (basis : Vector3.t) (amount : R) : Prop :=
  position m = Vector3.increasedBy (position c) (Vector3.times basis amount) /\
  targetPosition m = targetPosition c /\
  position (NA3DCamera.update m) = Vector3.lerp (position m) (targetPosition c) (s_ c) /\
  Vector3.decreasedBy (position (NA3DCamera.update m)) (targetPosition c)
    = Vector3.times (Vector3.decreasedBy (position m) (targetPosition c)) (1 - s_ c) /\
  (0 < s_ c <= 1 ->
   Vector3.sqrDistanceTo (position (NA3DCamera.update m)) (targetPosition c)
   <= Vector3.sqrDistanceTo (position m) (targetPosition c)) /\
  (position c = targetPosition c ->
   position (NA3DCamera.update m)
   = Vector3.increasedBy (position c) (Vector3.times basis ((1 - s_ c) * amount))).

(** A mutator other than [setSmoothness]. *)
Definition keepsSmoothness (o : NA3DCamera.op) : Prop :=
  match o with
  | NA3DCamera.SetSmoothness _ _ => False
  | _ => True
  end.

(** A unit vector. *)
Definition isUnit (v : Vector3.t) : Prop := Vector3.norm v = 1.

(** Three pairwise orthogonal unit vectors. *)
Definition orthonormal (r u l : Vector3.t) : Prop :=
  isUnit r /\ isUnit u /\ isUnit l /\
  Vector3.dot r u = 0 /\ Vector3.dot r l = 0 /\ Vector3.dot u l = 0.

(** The camera frame as [#updateRight] and [#updateUp] leave it when look is
    not within epsilon of collinear with the pedestal. *)
Definition frame_ok (c : NA3DCamera.t) : Prop :=
  isUnit (look c) /\ isUnit (pedestal c) /\
  Vector3.isZero (Vector3.cross (look c) (pedestal c)) = false /\
  right c = Vector3.normalize (Vector3.cross (look c) (pedestal c)) /\
  up c = Vector3.cross (right c) (look c).

(** A tick during which look never comes within epsilon of collinear with
    the pedestal where [right] is recomputed or relied upon, and whose
    vertical step does not carry look across the pedestal axis. *)
Definition update_regular (c : NA3DCamera.t) : Prop :=
  let c1 := NA3DCamera.updateX c in
  let c2 := NA3DCamera.updateY c1 in
  let c3 := NA3DCamera.updateR c2 in
  Vector3.isZero (Vector3.cross (look c1) (pedestal c1)) = false /\
  Vector3.isZero (Vector3.cross (look c2) (pedestal c2)) = false /\
  0 < Vector3.dot (Vector3.cross (look c2) (pedestal c2)) (right c1) /\
  Vector3.isZero (Vector3.cross (look c3) (pedestal c3)) = false.

(** A look request that is neither within epsilon of zero nor within epsilon
    of collinear with the pedestal. *)
Definition look_regular (c : NA3DCamera.t) (l : Vector3.t) : Prop :=
  Vector3.isZero (NA3DCamera.changeHand l) = false /\
  Vector3.isZero
    (Vector3.cross (Vector3.normalize (NA3DCamera.changeHand l)) (pedestal c)) = false.

Definition regular (c : NA3DCamera.t) (o : NA3DCamera.op) : Prop :=
  match o with
  | NA3DCamera.SetLook l => look_regular c l
  | NA3DCamera.LookAt target =>
      look_regular c (Vector3.difference (NA3DCamera.changeHand (position c)) target)
  | NA3DCamera.Update => update_regular c
  | _ => True
  end.

Fixpoint regular_run (c : NA3DCamera.t) (os : list NA3DCamera.op) : Prop :=
  match os with
  | [] => True
  | o :: os' => regular c o /\ regular_run (NA3DCamera.apply c o) os'
  end.

(** Component-wise agreement within a tolerance. *)
Definition within (tol : R) (a b : Vector3.t) : Prop :=
  Rabs (Vector3.x a - Vector3.x b) <= tol /\
  Rabs (Vector3.y a - Vector3.y b) <= tol /\
  Rabs (Vector3.z a - Vector3.z b) <= tol.

(** ** Example cameras *)

(** A camera at rest at the origin, half-way smoothing on both coefficients. *)
Definition restingCamera : NA3DCamera.t :=
  NA3DCamera.mk (Vector3.mk 0 0 0) Vector3.UP Vector3.RIGHT Vector3.FRONT
    Vector3.RIGHT Vector3.UP (1/2) (1/2) 0 0 0 0 0 0 0 0 (Vector3.mk 0 0 0) 1 (-1).

(** The camera of the end-to-end scenario: at the origin, pedestal along the
    third axis, looking along the second, default elevation clamp. *)
Definition standardCamera : NA3DCamera.t :=
  NA3DCamera.new (Vector3.mk 0 0 0) (Vector3.mk 0 0 1) (Vector3.mk 0 1 0) 0
    NA3DCamera.defaultMaxAbsUpAng.

(** The same camera with an elevation clamp wider than a half turn. *)
Definition wideCamera : NA3DCamera.t :=
  NA3DCamera.new (Vector3.mk 0 0 0) (Vector3.mk 0 0 1) (Vector3.mk 0 1 0) 0 5.

(** An elevation a quarter of an epsilon above the default clamp. *)
Definition steepAngle : R := PI / 3 + Utils.epsilon / 4.

(** A camera whose elevation target lies beyond its clamp [1], as
    [setLookSmooth] can leave it. *)
Definition overshootingCamera : NA3DCamera.t :=
  NA3DCamera.mk (Vector3.mk 0 0 0) Vector3.UP Vector3.RIGHT Vector3.FRONT
    Vector3.RIGHT Vector3.UP (1/2) (1/2) 0 0 0 4 0 0 0 0 (Vector3.mk 0 0 0) 1 (-1).

(** A unit direction raised above the horizon, with rational components. *)
Definition skewDirection : Vector3.t := Vector3.mk (3/5) 0 (4/5).

(** * Properties *)

(** ** Booleans and comparisons *)

Lemma Rleb_true (a b : R) : Rleb a b = true <-> a <= b.
Proof. unfold Rleb; destruct (Rle_dec a b); split; intros; auto; discriminate. Qed.

Lemma Rleb_false (a b : R) : Rleb a b = false <-> b < a.
Proof.
  unfold Rleb; destruct (Rle_dec a b); split; intros; auto; try discriminate; lra.
Qed.

Lemma Rltb_true (a b : R) : Rltb a b = true <-> a < b.
Proof. unfold Rltb; destruct (Rlt_dec a b); split; intros; auto; discriminate. Qed.

Lemma Rltb_false (a b : R) : Rltb a b = false <-> b <= a.
Proof.
  unfold Rltb; destruct (Rlt_dec a b); split; intros; auto; try discriminate; lra.
Qed.

Lemma epsilon_pos : 0 < Utils.epsilon.
Proof. unfold Utils.epsilon; apply Rinv_0_lt_compat; lra. Qed.

Lemma epsilon_small : Utils.epsilon <= / 1000.
Proof. unfold Utils.epsilon; apply Rinv_le_contravar; lra. Qed.

Lemma isZero_true (a : R) : Utils.isZero a = true <-> Rabs a <= Utils.epsilon.
Proof. apply Rleb_true. Qed.

Lemma isZero_false (a : R) : Utils.isZero a = false <-> Utils.epsilon < Rabs a.
Proof. apply Rleb_false. Qed.

Lemma isZero_0 : Utils.isZero 0 = true.
Proof. apply isZero_true; rewrite Rabs_R0; apply Rlt_le, epsilon_pos. Qed.

Lemma vec_ext (a b : Vector3.t) :
  x a = x b -> y a = y b -> z a = z b -> a = b.
Proof. destruct a, b; simpl; intros; subst; reflexivity. Qed.

Lemma copy_id (v : Vector3.t) : Vector3.copy v = v.
Proof. destruct v; reflexivity. Qed.

Lemma vec_isZero_true (v : Vector3.t) :
  Vector3.isZero v = true <->
  Rabs (x v) <= Utils.epsilon /\ Rabs (y v) <= Utils.epsilon /\ Rabs (z v) <= Utils.epsilon.
Proof.
  unfold Vector3.isZero; rewrite !andb_true_iff, !isZero_true; tauto.
Qed.

Lemma vec_isZero_false (v : Vector3.t) :
  Vector3.isZero v = false <->
  Utils.epsilon < Rabs (x v) \/ Utils.epsilon < Rabs (y v) \/ Utils.epsilon < Rabs (z v).
Proof.
  unfold Vector3.isZero; rewrite !andb_false_iff, !isZero_false; tauto.
Qed.

Lemma rotateAbout_unfold (a b : Vector3.t) (r : R) :
  Vector3.rotateAbout a b r =
  if Rltb (Vector3.norm (aOrth a b)) Utils.epsilon then a
  else
    Vector3.increasedBy
      (Vector3.times
         (Vector3.increasedBy
            (Vector3.times (aOrth a b) (cos r / Vector3.norm (aOrth a b)))
            (Vector3.times (Vector3.cross b (aOrth a b))
               (sin r / Vector3.norm (Vector3.cross b (aOrth a b)))))
         (Vector3.norm (aOrth a b)))
      (aParallel a b).
Proof. reflexivity. Qed.

(** ** Degenerate inputs *)

Lemma rotateAbout_guard (u axis : Vector3.t) (radians : R) :
  Vector3.norm (aOrth u axis) < Utils.epsilon ->
  Vector3.rotateAbout u axis radians = u.
Proof.
  intros Hn; rewrite rotateAbout_unfold.
  apply Rltb_true in Hn; now rewrite Hn.
Qed.

(** C8. Degenerate inputs are no-ops: [normalize] leaves a vector whose
    components are all within epsilon of zero unchanged, so does
    [rotateAboutOrthogonal] with such a receiver, and [rotateAbout] leaves
    its receiver unchanged whenever the norm of the receiver's component
    orthogonal to the axis is below epsilon. *)
Theorem degenerate_inputs_are_noops :
  (forall v : Vector3.t, Vector3.isZero v = true -> Vector3.normalize v = v) /\
  (forall (u axis : Vector3.t) (radians : R),
      Vector3.isZero u = true -> Vector3.rotateAboutOrthogonal u axis radians = u) /\
  (forall (u axis : Vector3.t) (radians : R),
      Vector3.norm (aOrth u axis) < Utils.epsilon ->
      Vector3.rotateAbout u axis radians = u).
Proof.
  split; [| split].
  - intros v Hz; unfold Vector3.normalize.
    destruct (Vector3.isZero v); [reflexivity | discriminate].
  - intros u axis r Hz; unfold Vector3.rotateAboutOrthogonal.
    destruct (Vector3.isZero u); [reflexivity | discriminate].
  - intros u axis r Hn.
    rewrite rotateAbout_unfold.
    destruct (Rltb (Vector3.norm (aOrth u axis)) Utils.epsilon) eqn:Hg; [reflexivity |].
    apply Rltb_false in Hg; lra.
Qed.

Lemma norm_Z : Vector3.norm (Vector3.mk 0 0 0) = 0.
Proof.
  unfold Vector3.norm; simpl.
  replace (0 * 0 + 0 * 0 + 0 * 0) with 0 by ring; apply sqrt_0.
Qed.

Lemma degenerate_inputs_are_noops_witness :
  Vector3.normalize (Vector3.mk 0 0 0) = Vector3.mk 0 0 0 /\
  Vector3.rotateAboutOrthogonal (Vector3.mk 0 0 0) Vector3.UP 1 = Vector3.mk 0 0 0 /\
  Vector3.rotateAbout Vector3.UP Vector3.UP 1 = Vector3.UP.
Proof.
  destruct degenerate_inputs_are_noops as (Hn & Ho & Ha).
  assert (Hz : Vector3.isZero (Vector3.mk 0 0 0) = true).
  { unfold Vector3.isZero; simpl; now rewrite isZero_0. }
  split; [exact (Hn _ Hz) | split; [exact (Ho _ Vector3.UP 1 Hz) |]].
  apply Ha.
  replace (aOrth Vector3.UP Vector3.UP) with (Vector3.mk 0 0 0).
  - rewrite norm_Z; apply epsilon_pos.
  - unfold aOrth, aParallel, Vector3.UP, Vector3.dot, Vector3.times, Vector3.increasedBy;
      simpl; apply vec_ext; simpl; field.
Defined.

(** ** Handedness at the boundary *)

(** C6. The construction arguments [position], [pedestal] and [look] and the
    getters [construct3Position], [construct3Forward] and [construct3Right]
    pass through the transform that negates the second component, [xAngle]
    reports the negated angle, and [construct3Up] returns the up vector with
    no component negated. *)
Theorem handedness_at_the_boundary :
  forall (position_ pedestal_ look_ : Vector3.t) (xAng_ maxAbsUpAng : R) (c : NA3DCamera.t),
    let flip := fun v : Vector3.t => Vector3.mk (x v) (- y v) (z v) in
    let c0 := NA3DCamera.new position_ pedestal_ look_ xAng_ maxAbsUpAng in
    NA3DCamera.position c0 = flip position_ /\
    NA3DCamera.pedestal c0 = Vector3.normalize (flip pedestal_) /\
    NA3DCamera.look c0 = Vector3.normalize (flip look_) /\
    NA3DCamera.construct3Position c = flip (NA3DCamera.position c) /\
    NA3DCamera.construct3Forward c = flip (NA3DCamera.look c) /\
    NA3DCamera.construct3Right c = flip (NA3DCamera.right c) /\
    NA3DCamera.xAngle c = - NA3DCamera.xAng c /\
    NA3DCamera.construct3Up c = NA3DCamera.up c.
Proof.
  intros; repeat split; try reflexivity.
  unfold NA3DCamera.construct3Up; apply copy_id.
Qed.

(** ** Ray and plane *)

Lemma rayParameter_solves (ray : Ray.t) (plane : Plane.t) :
  Vector3.dot (Plane.n plane) (Ray.v ray) <> 0 ->
  Vector3.dot (Plane.n plane)
    (Vector3.increasedBy (Ray.P ray) (Vector3.times (Ray.v ray) (rayParameter ray plane)))
  + Plane.d plane = 0.
Proof.
  destruct ray as [[px py pz] [vx vy vz]], plane as [[nx ny nz] d].
  unfold rayParameter, Vector3.dot, Vector3.increasedBy, Vector3.times; simpl.
  intros Hden; field; exact Hden.
Qed.

(** C7. [rayPlaneIntersection] returns [null] exactly when [dot(n, v)] is
    within epsilon of zero or the solution [t] of [dot(n, P + t v) + d = 0]
    is negative; otherwise it returns [P + t v]. *)
Theorem rayPlaneIntersection_null_iff :
  forall (ray : Ray.t) (plane : Plane.t),
    let den := Vector3.dot (Plane.n plane) (Ray.v ray) in
    let t := rayParameter ray plane in
    (rayPlaneIntersection ray plane = None <-> (Rabs den <= Utils.epsilon \/ t < 0)) /\
    (~ (Rabs den <= Utils.epsilon \/ t < 0) ->
     rayPlaneIntersection ray plane =
       Some (Vector3.increasedBy (Ray.P ray) (Vector3.times (Ray.v ray) t))) /\
    (den <> 0 ->
     Vector3.dot (Plane.n plane)
       (Vector3.increasedBy (Ray.P ray) (Vector3.times (Ray.v ray) t))
     + Plane.d plane = 0).
Proof.
  intros ray plane den t.
  assert (Hcases :
    (Rabs den <= Utils.epsilon /\ rayPlaneIntersection ray plane = None) \/
    (Utils.epsilon < Rabs den /\ t < 0 /\ rayPlaneIntersection ray plane = None) \/
    (Utils.epsilon < Rabs den /\ 0 <= t /\
     rayPlaneIntersection ray plane =
       Some (Vector3.increasedBy (Ray.P ray) (Vector3.times (Ray.v ray) t)))).
  { unfold rayPlaneIntersection; fold den.
    destruct (Utils.isZero den) eqn:Hz.
    - left; split; [now apply isZero_true | reflexivity].
    - right; apply isZero_false in Hz.
      change (- (Vector3.dot (Plane.n plane) (Ray.P ray) + Plane.d plane) / den) with t.
      destruct (Rltb t 0) eqn:Ht.
      + left; apply Rltb_true in Ht; auto.
      + right; apply Rltb_false in Ht; auto. }
  split; [| split].
  - destruct Hcases as [[H1 H2] | [(H1 & H2 & H3) | (H1 & H2 & H3)]].
    + split; auto.
    + split; auto.
    + rewrite H3; split; [discriminate | intros [H | H]; lra].
  - intros Hn.
    destruct Hcases as [[H1 H2] | [(H1 & H2 & H3) | (H1 & H2 & H3)]]; tauto.
  - apply rayParameter_solves.
Qed.

Lemma rayPlaneIntersection_null_iff_witness :
  rayPlaneIntersection
    (Ray.mk (Vector3.mk 0 0 5) (Vector3.mk 0 0 (-1)))
    (Plane.mk (Vector3.mk 0 0 1) 0)
  = Some (Vector3.mk 0 0 0).
Proof.
  pose (ray := Ray.mk (Vector3.mk 0 0 5) (Vector3.mk 0 0 (-1))).
  pose (plane := Plane.mk (Vector3.mk 0 0 1) 0).
  destruct (rayPlaneIntersection_null_iff ray plane) as (_ & Hsome & _).
  assert (Hden : Vector3.dot (Plane.n plane) (Ray.v ray) = -1).
  { unfold Vector3.dot; simpl; ring. }
  assert (Ht : rayParameter ray plane = 5).
  { unfold rayParameter; rewrite Hden; unfold Vector3.dot; simpl; field. }
  fold ray plane; rewrite Hsome.
  - f_equal; rewrite Ht; apply vec_ext; simpl; ring.
  - rewrite Hden, Ht.
    pose proof epsilon_small; unfold Rabs; destruct (Rcase_abs (-1)); lra.
Defined.

(** ** What each step of [update()] leaves alone *)

Lemma same_controls_refl (c : NA3DCamera.t) : same_controls c c.
Proof. unfold same_controls; repeat split. Qed.

Lemma same_controls_trans (a b c : NA3DCamera.t) :
  same_controls a b -> same_controls b c -> same_controls a c.
Proof.
  unfold same_controls; intros H1 H2.
  decompose [and] H1; decompose [and] H2; repeat split; congruence.
Qed.

Ltac step_cases :=
  repeat match goal with
         | |- context [if ?b then _ else _] => destruct b
         end.

Ltac frame :=
  intros;
  repeat match goal with v := _ |- _ => subst v end;
  unfold NA3DCamera.actuallyRotateLeft, NA3DCamera.actuallyRotateUp,
    NA3DCamera.actuallyInclineRight, NA3DCamera.actuallyInclineForward;
  step_cases; unfold same_controls; simpl; repeat split; reflexivity.

Lemma actuallyRotateLeft_controls c r : same_controls c (NA3DCamera.actuallyRotateLeft c r).
Proof. frame. Qed.
Lemma actuallyRotateUp_controls c r : same_controls c (NA3DCamera.actuallyRotateUp c r).
Proof. frame. Qed.
Lemma actuallyInclineRight_controls c r : same_controls c (NA3DCamera.actuallyInclineRight c r).
Proof. frame. Qed.
Lemma actuallyInclineForward_controls c r : same_controls c (NA3DCamera.actuallyInclineForward c r).
Proof. frame. Qed.

Lemma actuallyRotateLeft_angles c r :
  let c' := NA3DCamera.actuallyRotateLeft c r in
  xAng c' = (if Utils.isZero r then xAng c else xAng c + r) /\
  yAng c' = yAng c /\ rInclinAng c' = rInclinAng c /\ fInclinAng c' = fInclinAng c /\
  pedestal c' = pedestal c.
Proof. frame. Qed.

Lemma actuallyRotateUp_angles c r :
  let c' := NA3DCamera.actuallyRotateUp c r in
  yAng c' =
    (if Utils.isZero r then yAng c
     else if Rltb (maxUpAng c) (yAng c + r) then maxUpAng c
     else if Rltb (yAng c + r) (minUpAng c) then minUpAng c
     else yAng c + r) /\
  xAng c' = xAng c /\ rInclinAng c' = rInclinAng c /\ fInclinAng c' = fInclinAng c /\
  pedestal c' = pedestal c /\ right c' = right c.
Proof. frame. Qed.

Lemma actuallyInclineRight_angles c r :
  let c' := NA3DCamera.actuallyInclineRight c r in
  rInclinAng c' = (if Rltb (Rabs r) Utils.epsilon then rInclinAng c else rInclinAng c + r) /\
  xAng c' = xAng c /\ yAng c' = yAng c /\ fInclinAng c' = fInclinAng c.
Proof. frame. Qed.

Lemma actuallyInclineForward_angles c r :
  let c' := NA3DCamera.actuallyInclineForward c r in
  fInclinAng c' = (if Rltb (Rabs r) Utils.epsilon then fInclinAng c else fInclinAng c + r) /\
  xAng c' = xAng c /\ yAng c' = yAng c /\ rInclinAng c' = rInclinAng c /\
  right c' = right c.
Proof. frame. Qed.

Lemma updateX_controls c : same_controls c (NA3DCamera.updateX c).
Proof. apply actuallyRotateLeft_controls. Qed.
Lemma updateY_controls c : same_controls c (NA3DCamera.updateY c).
Proof. apply actuallyRotateUp_controls. Qed.
Lemma updateR_controls c : same_controls c (NA3DCamera.updateR c).
Proof. apply actuallyInclineRight_controls. Qed.
Lemma updateF_controls c : same_controls c (NA3DCamera.updateF c).
Proof. apply actuallyInclineForward_controls. Qed.

Lemma update_unfold c :
  NA3DCamera.update c =
  NA3DCamera.set_position (angleSteps c)
    (Vector3.lerp (position (angleSteps c)) (targetPosition (angleSteps c)) (s_ (angleSteps c))).
Proof. reflexivity. Qed.

Lemma angleSteps_controls c : same_controls c (angleSteps c).
Proof.
  unfold angleSteps.
  eapply same_controls_trans; [apply updateX_controls |].
  eapply same_controls_trans; [apply updateY_controls |].
  eapply same_controls_trans; [apply updateR_controls |].
  apply updateF_controls.
Qed.

Lemma update_position c :
  position (NA3DCamera.update c) = Vector3.lerp (position c) (targetPosition c) (s_ c).
Proof.
  rewrite update_unfold; simpl.
  destruct (angleSteps_controls c) as (-> & -> & _ & -> & _); reflexivity.
Qed.

Lemma update_targets c :
  targetPosition (NA3DCamera.update c) = targetPosition c /\
  targetXang (NA3DCamera.update c) = targetXang c /\
  targetYang (NA3DCamera.update c) = targetYang c /\
  targetRInclinAng (NA3DCamera.update c) = targetRInclinAng c /\
  targetFInclinAng (NA3DCamera.update c) = targetFInclinAng c /\
  t_ (NA3DCamera.update c) = t_ c /\ s_ (NA3DCamera.update c) = s_ c /\
  maxUpAng (NA3DCamera.update c) = maxUpAng c /\ minUpAng (NA3DCamera.update c) = minUpAng c.
Proof.
  rewrite update_unfold; simpl.
  destruct (angleSteps_controls c) as (_ & -> & -> & -> & -> & -> & -> & -> & -> & -> & _).
  repeat split.
Qed.

(** The tracked angles after each step and after [update()]. *)
Lemma updateX_angles c :
  xAng (NA3DCamera.updateX c) =
    (if Utils.isZero (Utils.lerp (xAng c) (targetXang c) (t_ c) - xAng c) then xAng c
     else xAng c + (Utils.lerp (xAng c) (targetXang c) (t_ c) - xAng c)) /\
  yAng (NA3DCamera.updateX c) = yAng c /\
  rInclinAng (NA3DCamera.updateX c) = rInclinAng c /\
  fInclinAng (NA3DCamera.updateX c) = fInclinAng c.
Proof.
  destruct (actuallyRotateLeft_angles c
              (Utils.lerp (xAng c) (targetXang c) (t_ c) - xAng c)) as (H1 & H2 & H3 & H4 & _).
  repeat split; assumption.
Qed.

Lemma updateY_angles c :
  yAng (NA3DCamera.updateY c) =
    (let delta := Utils.lerp (yAng c) (targetYang c) (t_ c) - yAng c in
     if Utils.isZero delta then yAng c
     else if Rltb (maxUpAng c) (yAng c + delta) then maxUpAng c
     else if Rltb (yAng c + delta) (minUpAng c) then minUpAng c
     else yAng c + delta) /\
  xAng (NA3DCamera.updateY c) = xAng c /\
  rInclinAng (NA3DCamera.updateY c) = rInclinAng c /\
  fInclinAng (NA3DCamera.updateY c) = fInclinAng c.
Proof.
  destruct (actuallyRotateUp_angles c
              (Utils.lerp (yAng c) (targetYang c) (t_ c) - yAng c)) as (H1 & H2 & H3 & H4 & _).
  repeat split; assumption.
Qed.

Lemma updateR_angles c :
  rInclinAng (NA3DCamera.updateR c) =
    (let delta := Utils.lerp (rInclinAng c) (targetRInclinAng c) (t_ c) - rInclinAng c in
     if Rltb (Rabs delta) Utils.epsilon then rInclinAng c else rInclinAng c + delta) /\
  xAng (NA3DCamera.updateR c) = xAng c /\
  yAng (NA3DCamera.updateR c) = yAng c /\
  fInclinAng (NA3DCamera.updateR c) = fInclinAng c.
Proof.
  destruct (actuallyInclineRight_angles c
              (Utils.lerp (rInclinAng c) (targetRInclinAng c) (t_ c) - rInclinAng c))
    as (H1 & H2 & H3 & H4).
  repeat split; assumption.
Qed.

Lemma updateF_angles c :
  fInclinAng (NA3DCamera.updateF c) =
    (let delta := Utils.lerp (fInclinAng c) (targetFInclinAng c) (t_ c) - fInclinAng c in
     if Rltb (Rabs delta) Utils.epsilon then fInclinAng c else fInclinAng c + delta) /\
  xAng (NA3DCamera.updateF c) = xAng c /\
  yAng (NA3DCamera.updateF c) = yAng c /\
  rInclinAng (NA3DCamera.updateF c) = rInclinAng c.
Proof.
  destruct (actuallyInclineForward_angles c
              (Utils.lerp (fInclinAng c) (targetFInclinAng c) (t_ c) - fInclinAng c))
    as (H1 & H2 & H3 & H4 & _).
  repeat split; assumption.
Qed.

Lemma update_xAng c :
  xAng (NA3DCamera.update c) =
  let delta := Utils.lerp (xAng c) (targetXang c) (t_ c) - xAng c in
  if Utils.isZero delta then xAng c else xAng c + delta.
Proof.
  change (xAng (NA3DCamera.update c)) with (xAng (angleSteps c)); unfold angleSteps.
  destruct (updateF_angles (NA3DCamera.updateR (NA3DCamera.updateY (NA3DCamera.updateX c))))
    as (_ & -> & _).
  destruct (updateR_angles (NA3DCamera.updateY (NA3DCamera.updateX c))) as (_ & -> & _).
  destruct (updateY_angles (NA3DCamera.updateX c)) as (_ & -> & _).
  apply updateX_angles.
Qed.

Lemma update_yAng c :
  yAng (NA3DCamera.update c) =
  let delta := Utils.lerp (yAng c) (targetYang c) (t_ c) - yAng c in
  if Utils.isZero delta then yAng c
  else if Rltb (maxUpAng c) (yAng c + delta) then maxUpAng c
  else if Rltb (yAng c + delta) (minUpAng c) then minUpAng c
  else yAng c + delta.
Proof.
  change (yAng (NA3DCamera.update c)) with (yAng (angleSteps c)); unfold angleSteps.
  destruct (updateF_angles (NA3DCamera.updateR (NA3DCamera.updateY (NA3DCamera.updateX c))))
    as (_ & _ & -> & _).
  destruct (updateR_angles (NA3DCamera.updateY (NA3DCamera.updateX c))) as (_ & _ & -> & _).
  destruct (updateY_angles (NA3DCamera.updateX c)) as (-> & _).
  destruct (updateX_controls c) as (_ & _ & -> & _ & _ & -> & _ & _ & -> & -> & _).
  destruct (updateX_angles c) as (_ & -> & _).
  reflexivity.
Qed.

Lemma update_rInclinAng c :
  rInclinAng (NA3DCamera.update c) =
  let delta := Utils.lerp (rInclinAng c) (targetRInclinAng c) (t_ c) - rInclinAng c in
  if Rltb (Rabs delta) Utils.epsilon then rInclinAng c else rInclinAng c + delta.
Proof.
  change (rInclinAng (NA3DCamera.update c)) with (rInclinAng (angleSteps c)); unfold angleSteps.
  destruct (updateF_angles (NA3DCamera.updateR (NA3DCamera.updateY (NA3DCamera.updateX c))))
    as (_ & _ & _ & ->).
  destruct (updateR_angles (NA3DCamera.updateY (NA3DCamera.updateX c))) as (-> & _).
  pose proof (same_controls_trans _ _ _ (updateX_controls c)
                (updateY_controls (NA3DCamera.updateX c))) as Hc.
  destruct Hc as (_ & _ & -> & _ & _ & _ & -> & _).
  destruct (updateY_angles (NA3DCamera.updateX c)) as (_ & _ & -> & _).
  destruct (updateX_angles c) as (_ & _ & -> & _).
  reflexivity.
Qed.

Lemma update_fInclinAng c :
  fInclinAng (NA3DCamera.update c) =
  let delta := Utils.lerp (fInclinAng c) (targetFInclinAng c) (t_ c) - fInclinAng c in
  if Rltb (Rabs delta) Utils.epsilon then fInclinAng c else fInclinAng c + delta.
Proof.
  change (fInclinAng (NA3DCamera.update c)) with (fInclinAng (angleSteps c)); unfold angleSteps.
  destruct (updateF_angles (NA3DCamera.updateR (NA3DCamera.updateY (NA3DCamera.updateX c))))
    as (-> & _).
  pose proof (same_controls_trans _ _ _
                (same_controls_trans _ _ _ (updateX_controls c)
                   (updateY_controls (NA3DCamera.updateX c)))
                (updateR_controls (NA3DCamera.updateY (NA3DCamera.updateX c)))) as Hc.
  destruct Hc as (_ & _ & -> & _ & _ & _ & _ & -> & _).
  destruct (updateR_angles (NA3DCamera.updateY (NA3DCamera.updateX c))) as (_ & _ & _ & ->).
  destruct (updateY_angles (NA3DCamera.updateX c)) as (_ & _ & _ & ->).
  destruct (updateX_angles c) as (_ & _ & _ & ->).
  reflexivity.
Qed.

(** ** Translation helpers and the position target *)

Lemma lerp_residual (a b s : R) :
  Utils.lerp a b s - b = (1 - s) * (a - b).
Proof. unfold Utils.lerp; ring. Qed.

Lemma lerp_at_one (a b : R) : Utils.lerp a b 1 = b.
Proof. unfold Utils.lerp; ring. Qed.

Lemma vlerp_at_one (a b : Vector3.t) : Vector3.lerp a b 1 = b.
Proof. apply vec_ext; simpl; apply lerp_at_one. Qed.

Lemma vlerp_sqrDistance (a b : Vector3.t) (s : R) :
  Vector3.sqrDistanceTo (Vector3.lerp a b s) b
  = (1 - s) * (1 - s) * Vector3.sqrDistanceTo a b.
Proof.
  destruct a, b; unfold Vector3.sqrDistanceTo, Vector3.difference, Vector3.dot,
    Vector3.lerp, Utils.lerp; simpl; ring.
Qed.

Lemma sqrDistance_nonneg (a b : Vector3.t) : 0 <= Vector3.sqrDistanceTo a b.
Proof.
  unfold Vector3.sqrDistanceTo, Vector3.dot.
  repeat apply Rplus_le_le_0_compat; apply Rle_0_sqr.
Qed.

Lemma moved_without_target_intro (c m : NA3DCamera.t) (basis : Vector3.t) (amount : R) :
  position m = Vector3.increasedBy (position c) (Vector3.times basis amount) ->
  targetPosition m = targetPosition c ->
  s_ m = s_ c ->
  moved_without_target c m basis amount.
Proof.
  intros Hp Ht Hs; unfold moved_without_target.
  assert (Hu : position (NA3DCamera.update m)
               = Vector3.lerp (position m) (targetPosition c) (s_ c)).
  { rewrite update_position, Ht, Hs; reflexivity. }
  repeat split; auto.
  - rewrite Hu; apply vec_ext; simpl; unfold Utils.lerp; ring.
  - intros [Hs0 Hs1]; rewrite Hu, vlerp_sqrDistance.
    pose proof (sqrDistance_nonneg (position m) (targetPosition c)) as Hd.
    assert (Hk : (1 - s_ c) * (1 - s_ c) <= 1) by nra.
    rewrite <- (Rmult_1_l (Vector3.sqrDistanceTo (position m) (targetPosition c))) at 2.
    apply Rmult_le_compat_r; assumption.
  - intros Hrest; rewrite Hu, Hp, <- Hrest.
    apply vec_ext; simpl; unfold Utils.lerp; ring.
Qed.

(** C10. [moveRight], [moveForward] and [moveUp] add the scaled basis vector
    to [position] and leave [targetPosition] unchanged, whereas [setPosition]
    resets [targetPosition] to the new position; the following [update()]
    interpolates the position back toward the target of before the move, and
    for [0 < s <= 1] ends no farther from it, undoing the fraction [s] of the
    translation of a camera that was at its target. *)
Theorem move_leaves_targetPosition :
  forall (c : NA3DCamera.t) (amount : R),
    moved_without_target c (NA3DCamera.moveRight c amount) (right c) amount /\
    moved_without_target c (NA3DCamera.moveForward c amount) (look c) amount /\
    moved_without_target c (NA3DCamera.moveUp c amount) (up c) amount /\
    (forall p : Vector3.t,
        position (NA3DCamera.setPosition c p) = NA3DCamera.changeHand p /\
        targetPosition (NA3DCamera.setPosition c p) = NA3DCamera.changeHand p).
Proof.
  intros c amount.
  split; [| split; [| split]];
    try (apply moved_without_target_intro; reflexivity).
  intros p; split; reflexivity.
Qed.

Lemma move_leaves_targetPosition_witness :
  position (NA3DCamera.update (NA3DCamera.moveRight restingCamera 2)) = Vector3.mk 1 0 0.
Proof.
  destruct (move_leaves_targetPosition restingCamera 2) as ((_ & _ & _ & _ & _ & Hrest) & _).
  rewrite Hrest; [| reflexivity].
  apply vec_ext; simpl; lra.
Defined.

(** ** Smoothing coefficients of a fresh camera *)

Lemma clamp_between (lo v hi : R) :
  lo <= hi -> lo <= Utils.clamp lo v hi <= hi.
Proof.
  intros Hle; unfold Utils.clamp.
  destruct (Rleb v lo) eqn:H1; [lra |].
  destruct (Rleb hi v) eqn:H2; [lra |].
  apply Rleb_false in H1; apply Rleb_false in H2; lra.
Qed.

Lemma setSmoothness_range (c : NA3DCamera.t) (l p : R) :
  1 / 1000 <= t_ (NA3DCamera.setSmoothness c l p) <= 999 / 1000 /\
  1 / 1000 <= s_ (NA3DCamera.setSmoothness c l p) <= 999 / 1000.
Proof.
  unfold NA3DCamera.setSmoothness; simpl.
  pose proof (clamp_between (1 / 1000) l (999 / 1000)).
  pose proof (clamp_between (1 / 1000) p (999 / 1000)).
  lra.
Qed.

Lemma apply_keeps_coefficients (c : NA3DCamera.t) (o : NA3DCamera.op) :
  keepsSmoothness o ->
  t_ (NA3DCamera.apply c o) = t_ c /\ s_ (NA3DCamera.apply c o) = s_ c.
Proof.
  intros Hns; destruct o; try (split; reflexivity).
  - destruct Hns.
  - destruct (update_targets c) as (_ & _ & _ & _ & _ & Ht & Hs & _).
    split; assumption.
Qed.

Lemma run_keeps_coefficients (os : list NA3DCamera.op) :
  forall c : NA3DCamera.t,
    Forall keepsSmoothness os ->
    t_ (NA3DCamera.run c os) = t_ c /\ s_ (NA3DCamera.run c os) = s_ c.
Proof.
  induction os as [| o os IH]; intros c Hall.
  - split; reflexivity.
  - inversion Hall as [| o' os' Ho Hos]; subst.
    destruct (apply_keeps_coefficients c o Ho) as (Ht & Hs).
    destruct (IH (NA3DCamera.apply c o) Hos) as (Ht' & Hs').
    change (NA3DCamera.run c (o :: os)) with (NA3DCamera.run (NA3DCamera.apply c o) os).
    split; congruence.
Qed.

Lemma update_with_unit_coefficients (c : NA3DCamera.t) :
  t_ c = 1 -> s_ c = 1 ->
  position (NA3DCamera.update c) = targetPosition c /\
  (Utils.epsilon < Rabs (targetXang c - xAng c) -> xAng (NA3DCamera.update c) = targetXang c) /\
  (Rabs (targetXang c - xAng c) <= Utils.epsilon -> xAng (NA3DCamera.update c) = xAng c) /\
  (Utils.epsilon < Rabs (targetYang c - yAng c) ->
   minUpAng c <= targetYang c <= maxUpAng c ->
   yAng (NA3DCamera.update c) = targetYang c) /\
  (Rabs (targetYang c - yAng c) <= Utils.epsilon -> yAng (NA3DCamera.update c) = yAng c) /\
  (Utils.epsilon <= Rabs (targetRInclinAng c - rInclinAng c) ->
   rInclinAng (NA3DCamera.update c) = targetRInclinAng c) /\
  (Rabs (targetRInclinAng c - rInclinAng c) < Utils.epsilon ->
   rInclinAng (NA3DCamera.update c) = rInclinAng c) /\
  (Utils.epsilon <= Rabs (targetFInclinAng c - fInclinAng c) ->
   fInclinAng (NA3DCamera.update c) = targetFInclinAng c) /\
  (Rabs (targetFInclinAng c - fInclinAng c) < Utils.epsilon ->
   fInclinAng (NA3DCamera.update c) = fInclinAng c).
Proof.
  intros Ht Hs.
  assert (Hd : forall a b, Utils.lerp a b 1 - a = b - a) by (intros; unfold Utils.lerp; ring).
  repeat split.
  - rewrite update_position, Hs; apply vlerp_at_one.
  - intros H; rewrite update_xAng, Ht; cbv zeta; rewrite Hd.
    apply isZero_false in H; rewrite H; ring.
  - intros H; rewrite update_xAng, Ht; cbv zeta; rewrite Hd.
    apply isZero_true in H; rewrite H; reflexivity.
  - intros H [Hlo Hhi]; rewrite update_yAng, Ht; cbv zeta; rewrite Hd.
    apply isZero_false in H; rewrite H.
    replace (yAng c + (targetYang c - yAng c)) with (targetYang c) by ring.
    apply Rltb_false in Hhi; rewrite Hhi.
    apply Rltb_false in Hlo; rewrite Hlo; reflexivity.
  - intros H; rewrite update_yAng, Ht; cbv zeta; rewrite Hd.
    apply isZero_true in H; rewrite H; reflexivity.
  - intros H; rewrite update_rInclinAng, Ht; cbv zeta; rewrite Hd.
    apply Rltb_false in H; rewrite H; ring.
  - intros H; rewrite update_rInclinAng, Ht; cbv zeta; rewrite Hd.
    apply Rltb_true in H; rewrite H; reflexivity.
  - intros H; rewrite update_fInclinAng, Ht; cbv zeta; rewrite Hd.
    apply Rltb_false in H; rewrite H; ring.
  - intros H; rewrite update_fInclinAng, Ht; cbv zeta; rewrite Hd.
    apply Rltb_true in H; rewrite H; reflexivity.
Qed.

(** C9, as the code has it.  Until [setSmoothness] is called, a camera has
    [t = s = 1], a value [setSmoothness] never produces (its results lie in
    [0.001, 0.999]).  With [t = s = 1] one
    [update()] moves the position exactly to its target and moves a tracked
    angle exactly to its target when the two are farther apart than epsilon
    (for the elevation: when the target lies within the clamp bounds); an
    angle within epsilon of its target stays where it is. *)
Theorem fresh_camera_snaps_beyond_epsilon :
  (forall (position_ pedestal_ look_ : Vector3.t) (xAng_ maxAbsUpAng : R)
          (os : list NA3DCamera.op),
      Forall keepsSmoothness os ->
      t_ (NA3DCamera.run (NA3DCamera.new position_ pedestal_ look_ xAng_ maxAbsUpAng) os) = 1 /\
      s_ (NA3DCamera.run (NA3DCamera.new position_ pedestal_ look_ xAng_ maxAbsUpAng) os) = 1) /\
  (forall (c : NA3DCamera.t) (l p : R),
      1 / 1000 <= t_ (NA3DCamera.setSmoothness c l p) <= 999 / 1000 /\
      1 / 1000 <= s_ (NA3DCamera.setSmoothness c l p) <= 999 / 1000) /\
  (forall c : NA3DCamera.t,
      t_ c = 1 -> s_ c = 1 ->
      position (NA3DCamera.update c) = targetPosition c /\
      (Utils.epsilon < Rabs (targetXang c - xAng c) ->
       xAng (NA3DCamera.update c) = targetXang c) /\
      (Rabs (targetXang c - xAng c) <= Utils.epsilon ->
       xAng (NA3DCamera.update c) = xAng c) /\
      (Utils.epsilon < Rabs (targetYang c - yAng c) ->
       minUpAng c <= targetYang c <= maxUpAng c ->
       yAng (NA3DCamera.update c) = targetYang c) /\
      (Rabs (targetYang c - yAng c) <= Utils.epsilon ->
       yAng (NA3DCamera.update c) = yAng c) /\
      (Utils.epsilon <= Rabs (targetRInclinAng c - rInclinAng c) ->
       rInclinAng (NA3DCamera.update c) = targetRInclinAng c) /\
      (Rabs (targetRInclinAng c - rInclinAng c) < Utils.epsilon ->
       rInclinAng (NA3DCamera.update c) = rInclinAng c) /\
      (Utils.epsilon <= Rabs (targetFInclinAng c - fInclinAng c) ->
       fInclinAng (NA3DCamera.update c) = targetFInclinAng c) /\
      (Rabs (targetFInclinAng c - fInclinAng c) < Utils.epsilon ->
       fInclinAng (NA3DCamera.update c) = fInclinAng c)).
Proof.
  split; [| split; [apply setSmoothness_range | apply update_with_unit_coefficients]].
  intros position_ pedestal_ look_ xAng_ maxAbsUpAng os Hall.
  apply (run_keeps_coefficients os
           (NA3DCamera.new position_ pedestal_ look_ xAng_ maxAbsUpAng) Hall).
Qed.

Lemma fresh_camera_snaps_beyond_epsilon_witness :
  xAng (NA3DCamera.run standardCamera [NA3DCamera.RotateLeft 1; NA3DCamera.Update])
  = targetXang (NA3DCamera.rotateLeft standardCamera 1).
Proof.
  destruct fresh_camera_snaps_beyond_epsilon as (Hfresh & _ & Hsnap).
  assert (Hall : Forall keepsSmoothness [NA3DCamera.RotateLeft 1])
    by (constructor; [exact I | constructor]).
  destruct (Hfresh (Vector3.mk 0 0 0) (Vector3.mk 0 0 1) (Vector3.mk 0 1 0) 0
              NA3DCamera.defaultMaxAbsUpAng [NA3DCamera.RotateLeft 1] Hall) as (Ht & Hs).
  destruct (Hsnap (NA3DCamera.rotateLeft standardCamera 1) Ht Hs) as (_ & Hx & _).
  apply Hx.
  change (targetXang (NA3DCamera.rotateLeft standardCamera 1)) with (- 0 + 1).
  change (xAng (NA3DCamera.rotateLeft standardCamera 1)) with (- 0).
  replace (- 0 + 1 - - 0) with 1 by ring.
  rewrite Rabs_R1; pose proof epsilon_small; lra.
Defined.

(** C9, as stated, fails on the code: on the fresh camera of the end-to-end
    scenario, [rotateLeft(epsilon / 2)] followed by [update()] leaves the
    tracked horizontal angle where it was, half an epsilon from its target. *)
Lemma snap_fails_within_epsilon :
  let c := NA3DCamera.run standardCamera
             [NA3DCamera.RotateLeft (Utils.epsilon / 2); NA3DCamera.Update] in
  t_ standardCamera = 1 /\ s_ standardCamera = 1 /\
  targetXang c - xAng c = Utils.epsilon / 2 /\
  ~ (xAng c = targetXang c).
Proof.
  cbv zeta.
  change (NA3DCamera.run standardCamera
            [NA3DCamera.RotateLeft (Utils.epsilon / 2); NA3DCamera.Update])
    with (NA3DCamera.update (NA3DCamera.rotateLeft standardCamera (Utils.epsilon / 2))).
  set (c1 := NA3DCamera.rotateLeft standardCamera (Utils.epsilon / 2)).
  destruct (update_with_unit_coefficients c1 eq_refl eq_refl) as (_ & _ & Hx & _).
  destruct (update_targets c1) as (_ & Ht & _).
  assert (Hgap : targetXang c1 - xAng c1 = Utils.epsilon / 2).
  { change (targetXang c1) with (- 0 + Utils.epsilon / 2).
    change (xAng c1) with (- 0); ring. }
  pose proof epsilon_pos as Hpos.
  rewrite Ht, Hx.
  - repeat split; auto; lra.
  - rewrite Hgap, Rabs_pos_eq; lra.
Qed.

(** ** Norms and unit vectors *)

Lemma dot_self_nonneg (v : Vector3.t) : 0 <= Vector3.dot v v.
Proof. unfold Vector3.dot; repeat apply Rplus_le_le_0_compat; apply Rle_0_sqr. Qed.

Lemma norm_dot (v : Vector3.t) : Vector3.norm v = sqrt (Vector3.dot v v).
Proof. reflexivity. Qed.

Lemma norm_nonneg (v : Vector3.t) : 0 <= Vector3.norm v.
Proof. apply sqrt_pos. Qed.

Lemma norm_sqr (v : Vector3.t) : Vector3.norm v * Vector3.norm v = Vector3.dot v v.
Proof. rewrite norm_dot; apply sqrt_sqrt, dot_self_nonneg. Qed.

Lemma norm_unit (v : Vector3.t) : Vector3.norm v = 1 <-> Vector3.dot v v = 1.
Proof.
  rewrite norm_dot; split; intros H.
  - symmetry; apply (sqrt_lem_0 _ 1) in H; [lra | apply dot_self_nonneg | lra].
  - rewrite H; apply sqrt_1.
Qed.

Lemma Rabs_le_sqr (a e : R) : Rabs a <= e -> a * a <= e * e.
Proof.
  intros H; pose proof (Rabs_pos a) as Hp.
  replace (a * a) with (Rabs a * Rabs a).
  - apply Rmult_le_compat; lra.
  - unfold Rabs; destruct (Rcase_abs a); ring.
Qed.

(** A vector that [isZero] accepts has norm at most [sqrt 3 * epsilon]. *)
Lemma isZero_dot_bound (v : Vector3.t) :
  Vector3.isZero v = true -> Vector3.dot v v <= 3 * (Utils.epsilon * Utils.epsilon).
Proof.
  intros H; apply vec_isZero_true in H; destruct H as (Hx & Hy & Hz).
  apply Rabs_le_sqr in Hx, Hy, Hz; unfold Vector3.dot; lra.
Qed.

Lemma epsilon_sqr_small : 3 * (Utils.epsilon * Utils.epsilon) < 1.
Proof.
  pose proof epsilon_pos; pose proof epsilon_small.
  assert (Utils.epsilon * Utils.epsilon <= / 1000 * / 1000)
    by (apply Rmult_le_compat; lra).
  lra.
Qed.

Lemma unit_not_isZero (v : Vector3.t) : Vector3.dot v v = 1 -> Vector3.isZero v = false.
Proof.
  intros H; destruct (Vector3.isZero v) eqn:Hz; [| reflexivity].
  apply isZero_dot_bound in Hz; pose proof epsilon_sqr_small; lra.
Qed.

Lemma normalize_unit (v : Vector3.t) : Vector3.dot v v = 1 -> Vector3.normalize v = v.
Proof.
  intros H; unfold Vector3.normalize.
  rewrite (unit_not_isZero v H), (proj2 (norm_unit v) H).
  apply vec_ext; simpl; field.
Qed.

Lemma normalize_is_unit (v : Vector3.t) :
  Vector3.isZero v = false -> Vector3.dot (Vector3.normalize v) (Vector3.normalize v) = 1.
Proof.
  intros Hz; unfold Vector3.normalize; rewrite Hz.
  assert (Hpos : 0 < Vector3.dot v v).
  { apply vec_isZero_false in Hz; pose proof epsilon_pos as He.
    pose proof (dot_self_nonneg v) as Hn.
    destruct (Req_dec (Vector3.dot v v) 0) as [H0 | H0]; [| lra].
    exfalso; unfold Vector3.dot in H0.
    assert (x v = 0 /\ y v = 0 /\ z v = 0) as (Hx & Hy & Hz') by (repeat split; nra).
    rewrite Hx, Hy, Hz', Rabs_R0 in Hz; lra. }
  assert (Hn : Vector3.norm v <> 0).
  { intros H0; pose proof (norm_sqr v) as Hs; rewrite H0 in Hs; lra. }
  unfold Vector3.dot; simpl.
  replace (x v / Vector3.norm v * (x v / Vector3.norm v)
           + y v / Vector3.norm v * (y v / Vector3.norm v)
           + z v / Vector3.norm v * (z v / Vector3.norm v))
    with (Vector3.dot v v / (Vector3.norm v * Vector3.norm v))
    by (unfold Vector3.dot; field; exact Hn).
  rewrite norm_sqr; field; lra.
Qed.

(** ** The camera of the end-to-end scenario *)

Lemma levelCamera_fields (m : R) :
  let c := NA3DCamera.new (Vector3.mk 0 0 0) (Vector3.mk 0 0 1) (Vector3.mk 0 1 0) 0 m in
  pedestal c = Vector3.mk 0 0 1 /\
  look c = Vector3.mk 0 (-1) 0 /\
  right c = Vector3.mk (-1) 0 0 /\
  up c = Vector3.mk 0 0 1 /\
  xAng c = 0 /\ targetXang c = 0 /\
  yAng c = 0 /\ targetYang c = 0 /\
  maxUpAng c = m /\ minUpAng c = - m.
Proof.
  assert (Hp : Vector3.normalize (NA3DCamera.changeHand (Vector3.mk 0 0 1)) = Vector3.mk 0 0 1).
  { rewrite normalize_unit; [apply vec_ext; simpl; ring | unfold Vector3.dot; simpl; ring]. }
  assert (Hl : Vector3.normalize (NA3DCamera.changeHand (Vector3.mk 0 1 0)) = Vector3.mk 0 (-1) 0).
  { rewrite normalize_unit; [apply vec_ext; simpl; ring | unfold Vector3.dot; simpl; ring]. }
  assert (Hr : Vector3.normalize (Vector3.cross (Vector3.mk 0 (-1) 0) (Vector3.mk 0 0 1))
               = Vector3.mk (-1) 0 0).
  { rewrite normalize_unit; [apply vec_ext; simpl; ring | unfold Vector3.dot; simpl; ring]. }
  assert (Hy : PI / 2 - Vector3.angleBetween (Vector3.mk 0 0 1) (Vector3.mk 0 (-1) 0) = 0).
  { unfold Vector3.angleBetween, Vector3.dot; simpl.
    replace (0 * 0 + 0 * -1 + 1 * 0) with 0 by ring; rewrite acos_0; ring. }
  unfold NA3DCamera.new; cbv zeta; simpl.
  rewrite Hp, Hl, Hr, Hy.
  repeat split; try reflexivity; try (unfold NA3DCamera.changeAngleHand; ring).
  apply vec_ext; simpl; ring.
Qed.

Lemma standardCamera_fields :
  pedestal standardCamera = Vector3.mk 0 0 1 /\
  look standardCamera = Vector3.mk 0 (-1) 0 /\
  right standardCamera = Vector3.mk (-1) 0 0 /\
  up standardCamera = Vector3.mk 0 0 1 /\
  xAng standardCamera = 0 /\ targetXang standardCamera = 0 /\
  yAng standardCamera = 0 /\ targetYang standardCamera = 0 /\
  maxUpAng standardCamera = PI / 3 /\ minUpAng standardCamera = - (PI / 3).
Proof. exact (levelCamera_fields NA3DCamera.defaultMaxAbsUpAng). Qed.

(** ** Steps of [update()] that have nothing to do *)

Lemma lerp_same (a k : R) : Utils.lerp a a k - a = 0.
Proof. unfold Utils.lerp; ring. Qed.

Lemma Rltb_0_epsilon : Rltb (Rabs 0) Utils.epsilon = true.
Proof. apply Rltb_true; rewrite Rabs_R0; apply epsilon_pos. Qed.

Lemma updateX_idle c : targetXang c = xAng c -> NA3DCamera.updateX c = c.
Proof.
  intros H; unfold NA3DCamera.updateX, NA3DCamera.setXangle, NA3DCamera.actuallyRotateLeft.
  now rewrite H, lerp_same, isZero_0.
Qed.

Lemma updateY_idle c : targetYang c = yAng c -> NA3DCamera.updateY c = c.
Proof.
  intros H; unfold NA3DCamera.updateY, NA3DCamera.setYangle, NA3DCamera.actuallyRotateUp.
  now rewrite H, lerp_same, isZero_0.
Qed.

Lemma updateR_idle c : targetRInclinAng c = rInclinAng c -> NA3DCamera.updateR c = c.
Proof.
  intros H; unfold NA3DCamera.updateR, NA3DCamera.setRInclinAng, NA3DCamera.actuallyInclineRight.
  now rewrite H, lerp_same, Rltb_0_epsilon.
Qed.

Lemma updateF_idle c : targetFInclinAng c = fInclinAng c -> NA3DCamera.updateF c = c.
Proof.
  intros H; unfold NA3DCamera.updateF, NA3DCamera.setFInclinAng, NA3DCamera.actuallyInclineForward.
  now rewrite H, lerp_same, Rltb_0_epsilon.
Qed.

(** Without a pending inclination, [update()] stops after its first two steps. *)
Lemma angleSteps_no_inclination c :
  targetRInclinAng c = rInclinAng c -> targetFInclinAng c = fInclinAng c ->
  angleSteps c = NA3DCamera.updateY (NA3DCamera.updateX c).
Proof.
  intros HR HF; unfold angleSteps.
  set (c2 := NA3DCamera.updateY (NA3DCamera.updateX c)).
  assert (Hc : same_controls c c2).
  { eapply same_controls_trans; [apply updateX_controls | apply updateY_controls]. }
  assert (Hr : rInclinAng c2 = rInclinAng c).
  { unfold c2; destruct (updateY_angles (NA3DCamera.updateX c)) as (_ & _ & -> & _).
    apply updateX_angles. }
  assert (Hf : fInclinAng c2 = fInclinAng c).
  { unfold c2; destruct (updateY_angles (NA3DCamera.updateX c)) as (_ & _ & _ & ->).
    apply updateX_angles. }
  destruct Hc as (_ & _ & _ & _ & _ & _ & HtR & HtF & _).
  rewrite (updateR_idle c2) by congruence.
  apply updateF_idle; congruence.
Qed.

Lemma update_still_pedestal c :
  targetRInclinAng c = rInclinAng c -> targetFInclinAng c = fInclinAng c ->
  pedestal (NA3DCamera.update c) = pedestal c.
Proof.
  intros HR HF.
  change (pedestal (NA3DCamera.update c)) with (pedestal (angleSteps c)).
  rewrite angleSteps_no_inclination by assumption.
  unfold NA3DCamera.updateY, NA3DCamera.setYangle.
  destruct (actuallyRotateUp_angles (NA3DCamera.updateX c)
              (Utils.lerp (yAng (NA3DCamera.updateX c)) (targetYang (NA3DCamera.updateX c))
                 (t_ (NA3DCamera.updateX c)) - yAng (NA3DCamera.updateX c)))
    as (_ & _ & _ & _ & -> & _).
  apply (actuallyRotateLeft_angles c).
Qed.

(** ** Elevation clamp *)

Lemma PI_gt_3 : 3 < PI.
Proof. pose proof PI2_3_2; lra. Qed.

Lemma steepLook_elevation :
  PI / 2 - Vector3.angleBetween
             (Vector3.normalize
                (NA3DCamera.changeHand (Vector3.mk 0 (cos steepAngle) (sin steepAngle))))
             (Vector3.mk 0 0 1)
  = steepAngle.
Proof.
  pose proof (sin2_cos2 steepAngle) as Hsc; unfold Rsqr in Hsc.
  rewrite normalize_unit by (unfold Vector3.dot; simpl; lra).
  unfold Vector3.angleBetween, Vector3.dot; simpl.
  replace (0 * 0 + - cos steepAngle * 0 + sin steepAngle * 1) with (sin steepAngle) by ring.
  rewrite <- cos_shift, acos_cos; [ring |].
  pose proof PI_gt_3; pose proof PI_4; pose proof epsilon_pos; pose proof epsilon_small.
  unfold steepAngle; lra.
Qed.

(** C4, as stated, fails on the code.  The camera of the end-to-end scenario
    is raised to a quarter of an epsilon below the clamp ([rotateUp] then
    [update()]), then [setLookSmooth] asks for a direction a quarter of an
    epsilon above it.  The full vertical delta of the next [update()] would
    push the tracked elevation past [maxUpAng], yet the step is skipped:
    the tracked angle stays below the bound instead of being set to it. *)
Lemma clamp_skipped_within_epsilon :
  let c := NA3DCamera.run standardCamera
             [NA3DCamera.RotateUp (PI / 3 - Utils.epsilon / 4);
              NA3DCamera.Update;
              NA3DCamera.SetLookSmooth (Vector3.mk 0 (cos steepAngle) (sin steepAngle))] in
  let delta := Utils.lerp (yAng c) (targetYang c) (t_ c) - yAng c in
  maxUpAng c < yAng c + delta /\
  yAng (NA3DCamera.update c) = maxUpAng c - Utils.epsilon / 4 /\
  ~ (yAng (NA3DCamera.update c) = maxUpAng c).
Proof.
  pose proof PI_gt_3 as Hpi3; pose proof PI_4 as Hpi4.
  pose proof epsilon_pos as He; pose proof epsilon_small as He'.
  destruct standardCamera_fields
    as (Hped & _ & _ & _ & _ & _ & Hy0 & Hty0 & Hmax & Hmin).
  set (c1 := NA3DCamera.rotateUp standardCamera (PI / 3 - Utils.epsilon / 4)).
  set (c2 := NA3DCamera.update c1).
  set (look2 := Vector3.mk 0 (cos steepAngle) (sin steepAngle)).
  change (NA3DCamera.run standardCamera
            [NA3DCamera.RotateUp (PI / 3 - Utils.epsilon / 4); NA3DCamera.Update;
             NA3DCamera.SetLookSmooth look2])
    with (NA3DCamera.setLookSmooth c2 look2).
  set (c3 := NA3DCamera.setLookSmooth c2 look2).
  assert (Ht1 : targetYang c1 = PI / 3 - Utils.epsilon / 4).
  { change (targetYang c1)
      with (Utils.clamp (minUpAng standardCamera)
              (targetYang standardCamera + (PI / 3 - Utils.epsilon / 4))
              (maxUpAng standardCamera)).
    rewrite Hty0, Hmax, Hmin; unfold Utils.clamp.
    rewrite (proj2 (Rleb_false _ _)) by lra.
    rewrite (proj2 (Rleb_false _ _)) by lra.
    ring. }
  assert (Hy1 : yAng c1 = 0) by exact Hy0.
  assert (Hmax1 : maxUpAng c1 = PI / 3) by exact Hmax.
  assert (Hmin1 : minUpAng c1 = - (PI / 3)) by exact Hmin.
  destruct (update_with_unit_coefficients c1 eq_refl eq_refl)
    as (_ & _ & _ & Hsnap & _).
  assert (Hy2 : yAng c2 = PI / 3 - Utils.epsilon / 4).
  { unfold c2; rewrite Hsnap; [exact Ht1 | | rewrite Ht1, Hmax1, Hmin1; lra].
    rewrite Ht1, Hy1, Rabs_pos_eq; lra. }
  destruct (update_targets c1) as (_ & _ & _ & _ & _ & Ht2 & Hs2 & Hmax2 & Hmin2).
  fold c2 in Ht2, Hs2, Hmax2, Hmin2.
  assert (Hped2 : pedestal c2 = Vector3.mk 0 0 1).
  { unfold c2; rewrite update_still_pedestal by reflexivity; exact Hped. }
  assert (Hy3 : yAng c3 = PI / 3 - Utils.epsilon / 4) by exact Hy2.
  assert (Ht3 : t_ c3 = 1) by exact Ht2.
  assert (Hs3 : s_ c3 = 1) by exact Hs2.
  assert (Hmax3 : maxUpAng c3 = PI / 3) by (rewrite <- Hmax1; exact Hmax2).
  assert (HtY3 : targetYang c3 = steepAngle).
  { change (targetYang c3)
      with (PI / 2 - Vector3.angleBetween
                       (Vector3.normalize (NA3DCamera.changeHand look2)) (pedestal c2)).
    rewrite Hped2; apply steepLook_elevation. }
  cbv zeta.
  destruct (update_with_unit_coefficients c3 Ht3 Hs3) as (_ & _ & _ & _ & Hstay & _).
  rewrite Hstay.
  - rewrite Hy3, HtY3, Ht3, Hmax3; unfold Utils.lerp, steepAngle.
    repeat split; lra.
  - rewrite HtY3, Hy3; unfold steepAngle.
    rewrite Rabs_pos_eq; lra.
Qed.

Lemma actuallyRotateUp_look c r :
  look (NA3DCamera.actuallyRotateUp c r) =
  if Utils.isZero r then look c
  else if Rltb (maxUpAng c) (yAng c + r) then
    Vector3.rotateAboutOrthogonal (look c) (right c) (maxUpAng c - yAng c)
  else if Rltb (yAng c + r) (minUpAng c) then
    Vector3.rotateAboutOrthogonal (look c) (right c) (minUpAng c - yAng c)
  else Vector3.rotateAboutOrthogonal (look c) (right c) r.
Proof. frame. Qed.

(** The vertical step of [update()], in terms of the camera before the tick. *)
Lemma updateY_after_updateX c :
  let delta := Utils.lerp (yAng c) (targetYang c) (t_ c) - yAng c in
  let c1 := NA3DCamera.updateX c in
  NA3DCamera.updateY c1 = NA3DCamera.actuallyRotateUp c1 delta /\
  yAng c1 = yAng c /\ maxUpAng c1 = maxUpAng c /\ minUpAng c1 = minUpAng c.
Proof.
  cbv zeta.
  destruct (updateX_controls c) as (_ & _ & Ht & _ & _ & HtY & _ & _ & Hmax & Hmin & _).
  destruct (updateX_angles c) as (_ & Hy & _).
  unfold NA3DCamera.updateY, NA3DCamera.setYangle.
  rewrite Ht, HtY, Hy; auto.
Qed.

(** C4, as the code has it.  With [minUpAng <= maxUpAng], [rotateUp] stores
    a target clamped into [[minUpAng, maxUpAng]] at the moment of the
    request.  During [update()], for a vertical delta larger than epsilon in
    magnitude: if the full delta would push the tracked elevation past a
    bound, the look vector is rotated about [right] by the remainder up to
    that bound and the tracked angle is set exactly to the bound; otherwise
    the full delta is applied.  A vertical delta within epsilon of zero is
    skipped: neither the look vector nor the tracked angle changes. *)
Theorem elevation_clamp_beyond_epsilon :
  forall (c : NA3DCamera.t) (radians : R),
    minUpAng c <= maxUpAng c ->
    (targetYang (NA3DCamera.rotateUp c radians)
     = Utils.clamp (minUpAng c) (targetYang c + radians) (maxUpAng c) /\
     minUpAng c <= targetYang (NA3DCamera.rotateUp c radians) <= maxUpAng c) /\
    (let delta := Utils.lerp (yAng c) (targetYang c) (t_ c) - yAng c in
     let c1 := NA3DCamera.updateX c in
     Utils.epsilon < Rabs delta ->
     (maxUpAng c < yAng c + delta ->
      look (NA3DCamera.updateY c1)
      = Vector3.rotateAboutOrthogonal (look c1) (right c1) (maxUpAng c - yAng c) /\
      yAng (NA3DCamera.update c) = maxUpAng c) /\
     (yAng c + delta < minUpAng c ->
      look (NA3DCamera.updateY c1)
      = Vector3.rotateAboutOrthogonal (look c1) (right c1) (minUpAng c - yAng c) /\
      yAng (NA3DCamera.update c) = minUpAng c) /\
     (minUpAng c <= yAng c + delta <= maxUpAng c ->
      look (NA3DCamera.updateY c1)
      = Vector3.rotateAboutOrthogonal (look c1) (right c1) delta /\
      yAng (NA3DCamera.update c) = yAng c + delta)) /\
    (let delta := Utils.lerp (yAng c) (targetYang c) (t_ c) - yAng c in
     let c1 := NA3DCamera.updateX c in
     Rabs delta <= Utils.epsilon ->
     look (NA3DCamera.updateY c1) = look c1 /\
     yAng (NA3DCamera.update c) = yAng c).
Proof.
  intros c radians Hbounds.
  assert (Hskip :
    let delta := Utils.lerp (yAng c) (targetYang c) (t_ c) - yAng c in
    let c1 := NA3DCamera.updateX c in
    Rabs delta <= Utils.epsilon ->
    look (NA3DCamera.updateY c1) = look c1 /\
    yAng (NA3DCamera.update c) = yAng c).
  { intros delta c1 Hsmall.
    destruct (updateY_after_updateX c) as (HY & _).
    fold delta c1 in HY.
    pose proof (update_yAng c) as Hup; cbv zeta in Hup; fold delta in Hup.
    rewrite HY, actuallyRotateUp_look, Hup.
    apply isZero_true in Hsmall; rewrite Hsmall; split; reflexivity. }
  split; [| split; [| exact Hskip]].
  - split; [reflexivity |].
    change (targetYang (NA3DCamera.rotateUp c radians))
      with (Utils.clamp (minUpAng c) (targetYang c + radians) (maxUpAng c)).
    apply clamp_between, Hbounds.
  - intros delta c1 Hbig.
    destruct (updateY_after_updateX c) as (HY & Hy1 & Hmax1 & Hmin1).
    fold delta c1 in HY, Hy1, Hmax1, Hmin1.
    pose proof (update_yAng c) as Hup; cbv zeta in Hup; fold delta in Hup.
    rewrite HY, actuallyRotateUp_look, Hup, Hy1, Hmax1, Hmin1.
    apply isZero_false in Hbig; rewrite Hbig.
    split; [| split]; intros H.
    + rewrite (proj2 (Rltb_true _ _) H); split; reflexivity.
    + rewrite (proj2 (Rltb_false (maxUpAng c) (yAng c + delta))) by lra.
      rewrite (proj2 (Rltb_true _ _) H); split; reflexivity.
    + destruct H as [Hlo Hhi].
      rewrite (proj2 (Rltb_false _ _) Hhi).
      rewrite (proj2 (Rltb_false _ _) Hlo); split; reflexivity.
Qed.

Lemma elevation_clamp_beyond_epsilon_witness :
  minUpAng overshootingCamera <= maxUpAng overshootingCamera /\
  targetYang (NA3DCamera.rotateUp overshootingCamera (-5)) = -1 /\
  yAng (NA3DCamera.update overshootingCamera) = 1.
Proof.
  assert (Hb : minUpAng overshootingCamera <= maxUpAng overshootingCamera)
    by (simpl; lra).
  split; [exact Hb |].
  destruct (elevation_clamp_beyond_epsilon overshootingCamera (-5) Hb)
    as ((Hclamp & _) & Hstep & _).
  split.
  - rewrite Hclamp; simpl; unfold Utils.clamp.
    rewrite (proj2 (Rleb_true _ _)) by lra; reflexivity.
  - cbv zeta in Hstep.
    assert (Hd : Utils.lerp (yAng overshootingCamera) (targetYang overshootingCamera)
                   (t_ overshootingCamera) - yAng overshootingCamera = 2).
    { simpl; unfold Utils.lerp; lra. }
    rewrite Hd in Hstep.
    destruct Hstep as ((_ & Hmax) & _).
    + rewrite Rabs_pos_eq by lra; pose proof epsilon_small; lra.
    + simpl; lra.
    + exact Hmax.
Defined.

(** ** Vector algebra *)

Ltac vec_ring :=
  intros;
  repeat match goal with v : Vector3.t |- _ => destruct v end;
  unfold Vector3.dot, Vector3.cross, Vector3.times, Vector3.increasedBy,
    Vector3.decreasedBy; simpl;
  try (apply vec_ext; simpl); ring.

Lemma lagrange (a b : Vector3.t) :
  Vector3.dot (Vector3.cross a b) (Vector3.cross a b)
  = Vector3.dot a a * Vector3.dot b b - Vector3.dot a b * Vector3.dot a b.
Proof. vec_ring. Qed.

Lemma dot_comm (a b : Vector3.t) : Vector3.dot a b = Vector3.dot b a.
Proof. vec_ring. Qed.

Lemma dot_cross_left (a b : Vector3.t) : Vector3.dot (Vector3.cross a b) a = 0.
Proof. vec_ring. Qed.

Lemma dot_cross_right (a b : Vector3.t) : Vector3.dot (Vector3.cross a b) b = 0.
Proof. vec_ring. Qed.

Lemma Rabs_bounds (a e : R) : Rabs a <= e -> - e <= a <= e.
Proof. unfold Rabs; destruct (Rcase_abs a); lra. Qed.

Lemma unit_component_bounds (b : Vector3.t) :
  Vector3.dot b b = 1 -> Rabs (x b) <= 1 /\ Rabs (y b) <= 1 /\ Rabs (z b) <= 1.
Proof.
  unfold Vector3.dot; intros H.
  repeat split; apply Rabs_le; split; nra.
Qed.

Lemma component_le_norm (v : Vector3.t) :
  Rabs (x v) <= Vector3.norm v /\ Rabs (y v) <= Vector3.norm v /\ Rabs (z v) <= Vector3.norm v.
Proof.
  pose proof (norm_nonneg v) as Hn; pose proof (norm_sqr v) as Hs.
  unfold Vector3.dot in Hs.
  repeat split; apply Rabs_le; split; nra.
Qed.

Lemma not_isZero_norm (v : Vector3.t) :
  Vector3.isZero v = false -> Utils.epsilon < Vector3.norm v.
Proof.
  intros H; apply vec_isZero_false in H.
  destruct (component_le_norm v) as (Hx & Hy & Hz).
  destruct H as [H | [H | H]]; lra.
Qed.

Lemma dot_axis_aOrth (a b : Vector3.t) :
  Vector3.dot b b <> 0 -> Vector3.dot b (aOrth a b) = 0.
Proof.
  destruct a, b; unfold aOrth, aParallel, Vector3.dot, Vector3.times, Vector3.increasedBy;
    simpl; intros H; field; exact H.
Qed.

Lemma cross_norm_orthogonal (b o : Vector3.t) :
  Vector3.dot b b = 1 -> Vector3.dot b o = 0 ->
  Vector3.norm (Vector3.cross b o) = Vector3.norm o.
Proof.
  intros Hb Ho; rewrite !norm_dot, lagrange, Hb, Ho; f_equal; ring.
Qed.

(** [rotateAbout] about a unit axis, past its guard, is Rodrigues' formula. *)
Lemma rotateAbout_unit_axis (a b : Vector3.t) (r : R) :
  Vector3.dot b b = 1 -> Utils.epsilon <= Vector3.norm (aOrth a b) ->
  Vector3.rotateAbout a b r
  = Vector3.increasedBy
      (Vector3.increasedBy (Vector3.times (aOrth a b) (cos r))
         (Vector3.times (Vector3.cross b (aOrth a b)) (sin r)))
      (aParallel a b).
Proof.
  intros Hb Hn; rewrite rotateAbout_unfold.
  rewrite (proj2 (Rltb_false _ _) Hn).
  rewrite cross_norm_orthogonal by (auto; apply dot_axis_aOrth; lra).
  pose proof epsilon_pos as He.
  apply vec_ext; simpl; field; lra.
Qed.

Lemma orthogonal_parts (a b : Vector3.t) :
  Vector3.dot b b = 1 -> Vector3.dot a b = 0 ->
  aParallel a b = Vector3.mk 0 0 0 /\ aOrth a b = a.
Proof.
  intros Hb Hab; unfold aOrth, aParallel; rewrite Hb, Hab.
  split; apply vec_ext; simpl; field.
Qed.

Lemma rotateAboutOrthogonal_not_zero (u axis : Vector3.t) (r : R) :
  Vector3.isZero u = false ->
  Vector3.rotateAboutOrthogonal u axis r
  = Vector3.increasedBy (Vector3.times u (cos r)) (Vector3.times (Vector3.cross axis u) (sin r)).
Proof. intros H; unfold Vector3.rotateAboutOrthogonal; now rewrite H. Qed.

Lemma within_refl (tol : R) (a : Vector3.t) : 0 <= tol -> within tol a a.
Proof.
  intros H; unfold within.
  replace (x a - x a) with 0 by ring; replace (y a - y a) with 0 by ring.
  replace (z a - z a) with 0 by ring; rewrite Rabs_R0; auto.
Qed.

Lemma spun_component_bound (p q c s e : R) :
  Rabs p <= e -> Rabs q <= 2 * e -> -1 <= c <= 1 -> -1 <= s <= 1 ->
  Rabs (c * p + s * q + 0 - p) <= 4 * e.
Proof.
  intros Hp Hq Hc Hs.
  apply Rabs_bounds in Hp; apply Rabs_bounds in Hq.
  apply Rabs_le; split; nra.
Qed.

Lemma cross_component_bound (b a : Vector3.t) :
  Vector3.dot b b = 1 -> Vector3.isZero a = true ->
  Rabs (x (Vector3.cross b a)) <= 2 * Utils.epsilon /\
  Rabs (y (Vector3.cross b a)) <= 2 * Utils.epsilon /\
  Rabs (z (Vector3.cross b a)) <= 2 * Utils.epsilon.
Proof.
  intros Hb Ha.
  destruct (unit_component_bounds b Hb) as (Hx & Hy & Hz).
  apply vec_isZero_true in Ha; destruct Ha as (Ax & Ay & Az).
  apply Rabs_bounds in Hx, Hy, Hz, Ax, Ay, Az.
  pose proof epsilon_pos.
  simpl; repeat split; apply Rabs_le; split; nra.
Qed.

(** ** [rotateAbout] against [rotateAboutOrthogonal] *)

(** C5. For a receiver [a] orthogonal to a unit axis [b] and any angle,
    [rotateAbout] and [rotateAboutOrthogonal] agree within tolerance:
    component-wise within [4 * epsilon], hence within [1e-6], and exactly
    when the receiver is not within epsilon of zero. *)
Theorem rotateAbout_agrees_with_rotateAboutOrthogonal :
  forall (a b : Vector3.t) (theta : R),
    Vector3.norm b = 1 -> Vector3.dot a b = 0 ->
    within (/ 1000000) (Vector3.rotateAbout a b theta)
      (Vector3.rotateAboutOrthogonal a b theta) /\
    within (4 * Utils.epsilon) (Vector3.rotateAbout a b theta)
      (Vector3.rotateAboutOrthogonal a b theta) /\
    (Vector3.isZero a = false ->
     Vector3.rotateAbout a b theta = Vector3.rotateAboutOrthogonal a b theta).
Proof.
  intros a b theta Hb Hab; apply norm_unit in Hb.
  pose proof epsilon_pos as He.
  destruct (orthogonal_parts a b Hb Hab) as (Hpar & Horth).
  assert (Hexact : Vector3.isZero a = false ->
            Vector3.rotateAbout a b theta = Vector3.rotateAboutOrthogonal a b theta).
  { intros Hz; rewrite rotateAboutOrthogonal_not_zero by exact Hz.
    rewrite rotateAbout_unit_axis; auto.
    - rewrite Hpar, Horth; apply vec_ext; simpl; ring.
    - rewrite Horth; apply Rlt_le, not_isZero_norm, Hz. }
  assert (Hclose : within (4 * Utils.epsilon) (Vector3.rotateAbout a b theta)
                     (Vector3.rotateAboutOrthogonal a b theta)).
  { destruct (Vector3.isZero a) eqn:Hz.
    - unfold Vector3.rotateAboutOrthogonal; rewrite Hz.
      destruct (Rlt_dec (Vector3.norm (aOrth a b)) Utils.epsilon) as [Hsmall | Hbig].
      + rewrite (rotateAbout_guard a b theta Hsmall).
        apply within_refl; lra.
      + rewrite rotateAbout_unit_axis by (auto; lra).
        rewrite Hpar, Horth.
        destruct (cross_component_bound b a Hb Hz) as (Cx & Cy & Cz).
        pose proof (proj1 (vec_isZero_true a) Hz) as (Ax & Ay & Az).
        pose proof (COS_bound theta); pose proof (SIN_bound theta).
        unfold within; simpl Vector3.x; simpl Vector3.y; simpl Vector3.z.
        repeat split; apply spun_component_bound; assumption.
    - rewrite Hexact by reflexivity; apply within_refl; lra. }
  split; [| split; assumption].
  assert (Htol : 4 * Utils.epsilon <= / 1000000).
  { unfold Utils.epsilon; lra. }
  destruct Hclose as (H1 & H2 & H3); unfold within; repeat split; lra.
Qed.

Lemma rotateAbout_agrees_with_rotateAboutOrthogonal_witness :
  Vector3.norm Vector3.UP = 1 /\ Vector3.dot Vector3.RIGHT Vector3.UP = 0 /\
  Vector3.rotateAbout Vector3.RIGHT Vector3.UP (PI / 2)
  = Vector3.rotateAboutOrthogonal Vector3.RIGHT Vector3.UP (PI / 2).
Proof.
  assert (Hu : Vector3.norm Vector3.UP = 1)
    by (apply norm_unit; unfold Vector3.dot; simpl; ring).
  assert (Ho : Vector3.dot Vector3.RIGHT Vector3.UP = 0)
    by (unfold Vector3.dot; simpl; ring).
  split; [exact Hu | split; [exact Ho |]].
  apply (rotateAbout_agrees_with_rotateAboutOrthogonal Vector3.RIGHT Vector3.UP (PI / 2) Hu Ho).
  apply unit_not_isZero; unfold Vector3.dot; simpl; ring.
Defined.

(** ** Round trip through [Direction2] *)

Lemma skew_elevation_trig :
  let v_ := PI / 2 - acos (4/5) in
  cos v_ = 3/5 /\ sin v_ = 4/5.
Proof.
  cbv zeta; rewrite cos_shift, sin_shift.
  rewrite sin_acos, cos_acos by lra.
  split; [| reflexivity].
  replace (1 - (4/5)²) with ((3/5) * (3/5)) by (unfold Rsqr; field).
  apply sqrt_square; lra.
Qed.

Lemma skew_fromVector3 :
  Direction2.fromVector3 skewDirection Vector3.UP Vector3.RIGHT
  = Direction2.mk (acos (93/125)) (PI / 2 - acos (4/5)).
Proof.
  destruct skew_elevation_trig as (Hc & Hs).
  assert (Hd : Vector3.dot skewDirection Vector3.UP = 4/5)
    by (unfold Vector3.dot; simpl; field).
  unfold Direction2.fromVector3; cbv zeta.
  unfold Vector3.angleBetween; rewrite !Hd.
  rewrite copy_id, rotateAboutOrthogonal_not_zero
    by (apply unit_not_isZero; unfold Vector3.dot; simpl; field).
  rewrite cos_neg, sin_neg, Hc, Hs.
  f_equal.
  unfold Vector3.signedAngleBetween, Vector3.angleBetween.
  match goal with |- context [Rltb ?a 0] => replace a with 0 by (unfold Vector3.dot; simpl; field) end.
  rewrite (proj2 (Rltb_false 0 0)) by lra.
  f_equal; unfold Vector3.dot; simpl; field.
Qed.

Lemma skew_roundtrip_x :
  x (Direction2.toVector3 (Direction2.fromVector3 skewDirection Vector3.UP Vector3.RIGHT)
       Vector3.UP Vector3.RIGHT) = 279/625.
Proof.
  rewrite skew_fromVector3.
  destruct skew_elevation_trig as (Hc & Hs).
  pose proof epsilon_small as He; pose proof epsilon_pos as He0.
  unfold Direction2.toVector3; simpl Direction2.h; simpl Direction2.v.
  rewrite copy_id.
  rewrite (rotateAboutOrthogonal_not_zero Vector3.RIGHT)
    by (apply unit_not_isZero; unfold Vector3.dot; simpl; field).
  set (res := Vector3.increasedBy _ _).
  assert (Hx : x res = 93/125).
  { unfold res; simpl. rewrite cos_acos by lra. field. }
  assert (Hz : z res = 0) by (unfold res; simpl; ring).
  clearbody res; destruct res as [rx ry rz]; simpl in Hx, Hz; subst rx rz.
  rewrite rotateAboutOrthogonal_not_zero.
  - simpl; rewrite Hc; field.
  - apply vec_isZero_false; left; simpl; rewrite Rabs_pos_eq; lra.
Qed.

(** C3, on the code.  For the unit direction [(3/5, 0, 4/5)], which is not
    collinear with the vertical axis [UP], and the unit horizontal reference
    [RIGHT] orthogonal to it, [toVector3] applied to [fromVector3] returns a
    vector whose first component is [279/625], not [3/5]: the round trip
    misses by far more than [1e-6]. *)
Theorem roundtrip_misses_skewDirection :
  let back := Direction2.toVector3
                (Direction2.fromVector3 skewDirection Vector3.UP Vector3.RIGHT)
                Vector3.UP Vector3.RIGHT in
  Vector3.norm skewDirection = 1 /\ Vector3.norm Vector3.UP = 1 /\
  Vector3.norm Vector3.RIGHT = 1 /\ Vector3.dot Vector3.RIGHT Vector3.UP = 0 /\
  Vector3.cross skewDirection Vector3.UP = Vector3.mk 0 (- (3/5)) 0 /\
  x back = 279/625 /\ x skewDirection = 3/5 /\
  ~ within (/ 1000000) back skewDirection.
Proof.
  cbv zeta; rewrite !norm_unit.
  repeat split; try (unfold Vector3.dot; simpl; field); try apply skew_roundtrip_x.
  - apply vec_ext; simpl; field.
  - intros (Hx & _); rewrite skew_roundtrip_x in Hx; simpl in Hx.
    apply Rabs_bounds in Hx; lra.
Qed.

(** ** Frame of the camera *)

Lemma sin2_cos2' r : sin r * sin r + cos r * cos r = 1.
Proof. pose proof (sin2_cos2 r) as H; unfold Rsqr in H; exact H. Qed.

Ltac vec_components :=
  repeat match goal with
         | v : Vector3.t |- _ => destruct v
         end;
  unfold aOrth, aParallel, Vector3.dot, Vector3.cross, Vector3.times,
    Vector3.increasedBy in *; simpl in *.

Lemma rodrigues_norm (a b : Vector3.t) (c s : R) :
  Vector3.dot b b = 1 -> s * s + c * c = 1 ->
  let res := Vector3.increasedBy
      (Vector3.increasedBy (Vector3.times (aOrth a b) c)
         (Vector3.times (Vector3.cross b (aOrth a b)) s))
      (aParallel a b) in
  Vector3.dot res res = Vector3.dot a a.
Proof.
  intros Hb Hcs; cbv zeta.
  unfold aOrth, aParallel; rewrite Hb.
  vec_components.
  unfold Rdiv; rewrite Rinv_1, !Rmult_1_r.
  nsatz.
Qed.

Lemma rotateAbout_keeps_norm (a b : Vector3.t) (r : R) :
  Vector3.dot b b = 1 ->
  Vector3.dot (Vector3.rotateAbout a b r) (Vector3.rotateAbout a b r) = Vector3.dot a a.
Proof.
  intros Hb.
  destruct (Rlt_dec (Vector3.norm (aOrth a b)) Utils.epsilon) as [Hs | Hs].
  - now rewrite rotateAbout_guard.
  - rewrite rotateAbout_unit_axis by (auto; lra).
    apply rodrigues_norm; [exact Hb | apply sin2_cos2'].
Qed.

Lemma rotateAboutOrthogonal_keeps_unit (u axis : Vector3.t) (r : R) :
  Vector3.dot u u = 1 -> Vector3.dot axis axis = 1 -> Vector3.dot axis u = 0 ->
  Vector3.rotateAboutOrthogonal u axis r
  = Vector3.increasedBy (Vector3.times u (cos r))
      (Vector3.times (Vector3.cross axis u) (sin r)) /\
  Vector3.dot (Vector3.rotateAboutOrthogonal u axis r)
    (Vector3.rotateAboutOrthogonal u axis r) = 1.
Proof.
  intros Hu Ha Hau.
  rewrite rotateAboutOrthogonal_not_zero by (apply unit_not_isZero, Hu).
  split; [reflexivity |].
  pose proof (sin2_cos2' r) as Hcs.
  generalize dependent (cos r); generalize dependent (sin r); intros s c Hcs.
  vec_components; nsatz.
Qed.

Lemma normalize_scale (v : Vector3.t) :
  Vector3.isZero v = false ->
  0 < Vector3.norm v /\ Vector3.normalize v = Vector3.times v (/ Vector3.norm v).
Proof.
  intros Hz; pose proof (not_isZero_norm v Hz) as Hn; pose proof epsilon_pos.
  split; [lra |].
  unfold Vector3.normalize; rewrite Hz.
  apply vec_ext; simpl; field; lra.
Qed.

(** What a well-formed frame gives about its three stored vectors. *)
Lemma frame_facts (l p r : Vector3.t) :
  Vector3.dot l l = 1 -> Vector3.dot p p = 1 ->
  Vector3.isZero (Vector3.cross l p) = false ->
  r = Vector3.normalize (Vector3.cross l p) ->
  Vector3.dot r r = 1 /\ Vector3.dot r l = 0 /\ Vector3.dot r p = 0 /\
  0 < Vector3.norm (Vector3.cross l p) /\
  Vector3.cross l p = Vector3.times r (Vector3.norm (Vector3.cross l p)).
Proof.
  intros Hl Hp Hz Hr.
  destruct (normalize_scale _ Hz) as (Hn & Hs).
  pose proof (normalize_is_unit _ Hz) as Hu.
  rewrite <- Hr in Hu; rewrite Hs in Hr.
  set (n := Vector3.norm (Vector3.cross l p)) in *.
  assert (Hc : Vector3.cross l p = Vector3.times r n).
  { rewrite Hr; apply vec_ext; simpl; field; lra. }
  repeat split; auto.
  - rewrite Hr.
    replace (Vector3.dot (Vector3.times (Vector3.cross l p) (/ n)) l)
      with (/ n * Vector3.dot (Vector3.cross l p) l) by vec_ring.
    rewrite dot_cross_left; ring.
  - rewrite Hr.
    replace (Vector3.dot (Vector3.times (Vector3.cross l p) (/ n)) p)
      with (/ n * Vector3.dot (Vector3.cross l p) p) by vec_ring.
    rewrite dot_cross_right; ring.
Qed.

Lemma normalize_positive_multiple (r : Vector3.t) (k : R) :
  Vector3.dot r r = 1 -> 0 < k -> Vector3.isZero (Vector3.times r k) = false ->
  Vector3.normalize (Vector3.times r k) = r.
Proof.
  intros Hr Hk Hz.
  destruct (normalize_scale _ Hz) as (_ & ->).
  assert (Hn : Vector3.norm (Vector3.times r k) = k).
  { rewrite norm_dot.
    replace (Vector3.dot (Vector3.times r k) (Vector3.times r k))
      with (k * k * Vector3.dot r r) by vec_ring.
    rewrite Hr, Rmult_1_r; apply sqrt_square; lra. }
  rewrite Hn; apply vec_ext; simpl; field; lra.
Qed.

(** Cross product of a pitched look with the pedestal. *)
Lemma pitch_cross (l p r : Vector3.t) (n c s : R) :
  Vector3.dot r r = 1 -> Vector3.dot r l = 0 -> Vector3.dot r p = 0 ->
  Vector3.cross l p = Vector3.times r n ->
  Vector3.cross
    (Vector3.increasedBy (Vector3.times l c) (Vector3.times (Vector3.cross r l) s)) p
  = Vector3.times r (n * c - Vector3.dot l p * s).
Proof.
  intros Hr Hrl Hrp Hc.
  destruct l as [lx ly lz], p as [px py pz], r as [rx ry rz].
  unfold Vector3.dot, Vector3.cross, Vector3.times, Vector3.increasedBy in *; simpl in *.
  injection Hc as H1 H2 H3.
  apply vec_ext; simpl; nsatz.
Qed.

(** Look and pedestal pitched together keep their cross product. *)
Lemma pitch_both_cross (l p r : Vector3.t) (n c s : R) :
  Vector3.dot r r = 1 -> Vector3.dot r l = 0 -> Vector3.dot r p = 0 ->
  Vector3.cross l p = Vector3.times r n ->
  s * s + c * c = 1 ->
  Vector3.cross
    (Vector3.increasedBy (Vector3.times l c) (Vector3.times (Vector3.cross r l) s))
    (Vector3.increasedBy (Vector3.times p c) (Vector3.times (Vector3.cross r p) s))
  = Vector3.cross l p.
Proof.
  intros Hr Hrl Hrp Hc Hcs.
  destruct l as [lx ly lz], p as [px py pz], r as [rx ry rz].
  unfold Vector3.dot, Vector3.cross, Vector3.times, Vector3.increasedBy in *; simpl in *.
  injection Hc as H1 H2 H3.
  apply vec_ext; simpl; nsatz.
Qed.

Ltac cam_fields :=
  cbn [NA3DCamera.position NA3DCamera.pedestal NA3DCamera.horizontal NA3DCamera.look
       NA3DCamera.right NA3DCamera.up NA3DCamera.t_ NA3DCamera.s_ NA3DCamera.xAng
       NA3DCamera.yAng NA3DCamera.targetXang NA3DCamera.targetYang
       NA3DCamera.rInclinAng NA3DCamera.fInclinAng NA3DCamera.targetRInclinAng
       NA3DCamera.targetFInclinAng NA3DCamera.targetPosition NA3DCamera.maxUpAng
       NA3DCamera.minUpAng
       NA3DCamera.set_position NA3DCamera.set_pedestal NA3DCamera.set_look
       NA3DCamera.set_right NA3DCamera.set_up NA3DCamera.set_t_s NA3DCamera.set_xAng
       NA3DCamera.set_yAng NA3DCamera.set_targetXang NA3DCamera.set_targetYang
       NA3DCamera.set_rInclinAng NA3DCamera.set_fInclinAng
       NA3DCamera.set_targetRInclinAng NA3DCamera.set_targetFInclinAng
       NA3DCamera.set_targetPosition NA3DCamera.updateRight NA3DCamera.updateUp
       NA3DCamera.updateAngles] in *.

Lemma frame_ok_intro (c : NA3DCamera.t) :
  Vector3.dot (look c) (look c) = 1 -> Vector3.dot (pedestal c) (pedestal c) = 1 ->
  Vector3.isZero (Vector3.cross (look c) (pedestal c)) = false ->
  right c = Vector3.normalize (Vector3.cross (look c) (pedestal c)) ->
  up c = Vector3.cross (right c) (look c) ->
  frame_ok c.
Proof.
  intros Hl Hp Hz Hr Hu; unfold frame_ok, isUnit; rewrite !norm_unit; auto.
Qed.

Lemma frame_ok_elim (c : NA3DCamera.t) :
  frame_ok c ->
  Vector3.dot (look c) (look c) = 1 /\ Vector3.dot (pedestal c) (pedestal c) = 1 /\
  Vector3.isZero (Vector3.cross (look c) (pedestal c)) = false /\
  right c = Vector3.normalize (Vector3.cross (look c) (pedestal c)) /\
  up c = Vector3.cross (right c) (look c).
Proof. unfold frame_ok, isUnit; rewrite !norm_unit; auto. Qed.

Lemma frame_ok_orthonormal (c : NA3DCamera.t) :
  frame_ok c -> orthonormal (right c) (up c) (look c).
Proof.
  intros H; apply frame_ok_elim in H; destruct H as (Hl & Hp & Hz & Hr & Hu).
  destruct (frame_facts _ _ _ Hl Hp Hz Hr) as (Hrr & Hrl & Hrp & _).
  unfold orthonormal, isUnit; rewrite !norm_unit, Hu.
  repeat split; auto.
  - rewrite lagrange, Hrr, Hl, Hrl; ring.
  - rewrite dot_comm; apply dot_cross_left.
  - apply dot_cross_right.
Qed.

(** A look vector pitched about [right]. *)
Lemma pitched_frame (l p r : Vector3.t) (theta : R) :
  Vector3.dot l l = 1 -> Vector3.dot p p = 1 ->
  Vector3.isZero (Vector3.cross l p) = false ->
  r = Vector3.normalize (Vector3.cross l p) ->
  Vector3.isZero (Vector3.cross (Vector3.rotateAboutOrthogonal l r theta) p) = false ->
  0 < Vector3.dot (Vector3.cross (Vector3.rotateAboutOrthogonal l r theta) p) r ->
  Vector3.dot (Vector3.rotateAboutOrthogonal l r theta)
    (Vector3.rotateAboutOrthogonal l r theta) = 1 /\
  r = Vector3.normalize (Vector3.cross (Vector3.rotateAboutOrthogonal l r theta) p).
Proof.
  intros Hl Hp Hz Hr.
  destruct (frame_facts _ _ _ Hl Hp Hz Hr) as (Hrr & Hrl & Hrp & Hn & Hc).
  destruct (rotateAboutOrthogonal_keeps_unit l r theta Hl Hrr Hrl) as (-> & Hu).
  rewrite (pitch_cross l p r _ (cos theta) (sin theta) Hrr Hrl Hrp Hc).
  intros Hz' Hpos; split; [exact Hu |].
  symmetry; apply normalize_positive_multiple; auto.
  replace (Vector3.dot (Vector3.times r
             (Vector3.norm (Vector3.cross l p) * cos theta - Vector3.dot l p * sin theta)) r)
    with ((Vector3.norm (Vector3.cross l p) * cos theta - Vector3.dot l p * sin theta)
          * Vector3.dot r r) in Hpos by vec_ring.
  rewrite Hrr in Hpos; lra.
Qed.

(** The four steps of a tick, for a camera whose frame is well formed. *)
Section FrameSteps.

Variable c : NA3DCamera.t.
Hypothesis Hframe : frame_ok c.

Lemma frame_unpacked :
  Vector3.dot (look c) (look c) = 1 /\ Vector3.dot (pedestal c) (pedestal c) = 1 /\
  Vector3.isZero (Vector3.cross (look c) (pedestal c)) = false /\
  right c = Vector3.normalize (Vector3.cross (look c) (pedestal c)) /\
  Vector3.dot (right c) (right c) = 1 /\
  Vector3.dot (right c) (look c) = 0 /\ Vector3.dot (right c) (pedestal c) = 0 /\
  Vector3.cross (look c) (pedestal c)
  = Vector3.times (right c) (Vector3.norm (Vector3.cross (look c) (pedestal c))).
Proof.
  destruct (frame_ok_elim c Hframe) as (Hl & Hp & Hz & Hr & _).
  destruct (frame_facts _ _ _ Hl Hp Hz Hr) as (Hrr & Hrl & Hrp & _ & Hcross).
  repeat split; assumption.
Qed.

(** Horizontal step. *)
Lemma actuallyRotateLeft_frame (r : R) :
  Vector3.isZero
    (Vector3.cross (look (NA3DCamera.actuallyRotateLeft c r))
       (pedestal (NA3DCamera.actuallyRotateLeft c r))) = false ->
  frame_ok (NA3DCamera.actuallyRotateLeft c r).
Proof.
  unfold NA3DCamera.actuallyRotateLeft.
  destruct (Utils.isZero r); [auto |].
  destruct frame_unpacked as (Hl & Hp & _).
  cam_fields; intros Hz.
  apply frame_ok_intro; cam_fields; auto.
  rewrite rotateAbout_keeps_norm; auto.
Qed.

(** Vertical step. *)
Lemma actuallyRotateUp_frame (r : R) :
  Vector3.isZero
    (Vector3.cross (look (NA3DCamera.actuallyRotateUp c r))
       (pedestal (NA3DCamera.actuallyRotateUp c r))) = false ->
  0 < Vector3.dot
        (Vector3.cross (look (NA3DCamera.actuallyRotateUp c r))
           (pedestal (NA3DCamera.actuallyRotateUp c r))) (right c) ->
  frame_ok (NA3DCamera.actuallyRotateUp c r).
Proof.
  unfold NA3DCamera.actuallyRotateUp.
  destruct (Utils.isZero r); [auto |].
  destruct frame_unpacked as (Hl & Hp & Hz & Hr & _).
  destruct (Rltb (maxUpAng c) (yAng c + r));
    [| destruct (Rltb (yAng c + r) (minUpAng c))];
    cam_fields; intros Hz' Hpos;
    destruct (pitched_frame _ _ _ _ Hl Hp Hz Hr Hz' Hpos) as (Hu & Hr');
    apply frame_ok_intro; cam_fields; auto.
Qed.

(** Right-inclination step. *)
Lemma actuallyInclineRight_frame (r : R) :
  Vector3.isZero
    (Vector3.cross (look (NA3DCamera.actuallyInclineRight c r))
       (pedestal (NA3DCamera.actuallyInclineRight c r))) = false ->
  frame_ok (NA3DCamera.actuallyInclineRight c r).
Proof.
  unfold NA3DCamera.actuallyInclineRight.
  destruct (Rltb (Rabs r) Utils.epsilon); [auto |].
  destruct frame_unpacked as (Hl & Hp & Hz & Hr & Hrr & Hrl & Hrp & _).
  assert (Haxis : Vector3.dot (Vector3.cross (pedestal c) (right c))
                    (Vector3.cross (pedestal c) (right c)) = 1).
  { rewrite lagrange, Hp, Hrr, (dot_comm (pedestal c)), Hrp; ring. }
  cam_fields; intros Hz'.
  apply frame_ok_intro; cam_fields; auto.
  - rewrite rotateAbout_keeps_norm; auto.
  - apply rotateAboutOrthogonal_keeps_unit; auto.
    apply dot_cross_left.
Qed.

(** Forward-inclination step: look and pedestal turn together about [right],
    so their cross product, and with it [right], stays as it was. *)
Lemma actuallyInclineForward_frame (r : R) :
  frame_ok (NA3DCamera.actuallyInclineForward c r).
Proof.
  unfold NA3DCamera.actuallyInclineForward.
  destruct (Rltb (Rabs r) Utils.epsilon); [auto |].
  destruct frame_unpacked as (Hl & Hp & Hz & Hr & Hrr & Hrl & Hrp & Hcross).
  pose proof epsilon_small as He.
  assert (Hped : Vector3.rotateAbout (pedestal c) (right c) r
                 = Vector3.increasedBy (Vector3.times (pedestal c) (cos r))
                     (Vector3.times (Vector3.cross (right c) (pedestal c)) (sin r))).
  { pose proof Hrp as Hpr; rewrite dot_comm in Hpr.
    destruct (orthogonal_parts _ _ Hrr Hpr) as (Hpar & Horth).
    rewrite rotateAbout_unit_axis; auto.
    - rewrite Hpar, Horth; apply vec_ext; simpl; ring.
    - rewrite Horth, (proj2 (norm_unit _) Hp); lra. }
  destruct (rotateAboutOrthogonal_keeps_unit (look c) (right c) r Hl Hrr Hrl) as (Hlook & Hu).
  assert (Hsame : Vector3.cross (Vector3.rotateAboutOrthogonal (look c) (right c) r)
                    (Vector3.rotateAbout (pedestal c) (right c) r)
                  = Vector3.cross (look c) (pedestal c)).
  { rewrite Hlook, Hped.
    apply (pitch_both_cross _ _ _ _ _ _ Hrr Hrl Hrp Hcross), sin2_cos2'. }
  apply frame_ok_intro; cam_fields; auto.
  - rewrite rotateAbout_keeps_norm; auto.
  - rewrite Hsame; exact Hz.
  - rewrite Hsame; exact Hr.
Qed.

End FrameSteps.

Lemma update_frame (c : NA3DCamera.t) :
  frame_ok c -> update_regular c -> frame_ok (NA3DCamera.update c).
Proof.
  intros Hc (H1 & H2 & H3 & H4).
  change (frame_ok (angleSteps c)); unfold angleSteps.
  apply actuallyInclineForward_frame.
  apply actuallyInclineRight_frame; [| exact H4].
  apply actuallyRotateUp_frame; [| exact H2 | exact H3].
  apply actuallyRotateLeft_frame; [exact Hc | exact H1].
Qed.

Lemma setLook_frame (c : NA3DCamera.t) (l : Vector3.t) :
  frame_ok c -> look_regular c l -> frame_ok (NA3DCamera.setLook c l).
Proof.
  intros Hc (Hl & Hz); apply frame_ok_elim in Hc; destruct Hc as (_ & Hp & _).
  apply frame_ok_intro; auto.
  apply (normalize_is_unit _ Hl).
Qed.

Lemma changeHand_dot (v : Vector3.t) :
  Vector3.dot (NA3DCamera.changeHand v) (NA3DCamera.changeHand v) = Vector3.dot v v.
Proof. destruct v; unfold Vector3.dot; simpl; ring. Qed.

Lemma new_frame (position_ pedestal_ look_ : Vector3.t) (xAng_ maxAbsUpAng : R) :
  isUnit pedestal_ -> isUnit look_ ->
  Vector3.isZero
    (Vector3.cross (NA3DCamera.changeHand look_) (NA3DCamera.changeHand pedestal_)) = false ->
  frame_ok (NA3DCamera.new position_ pedestal_ look_ xAng_ maxAbsUpAng).
Proof.
  unfold isUnit; rewrite !norm_unit; intros Hp Hl Hz.
  rewrite <- changeHand_dot in Hp, Hl.
  apply frame_ok_intro;
    unfold NA3DCamera.new; cam_fields; rewrite ?(normalize_unit _ Hp), ?(normalize_unit _ Hl);
    auto.
Qed.

Lemma apply_frame (c : NA3DCamera.t) (o : NA3DCamera.op) :
  frame_ok c -> regular c o -> frame_ok (NA3DCamera.apply c o).
Proof.
  intros Hc Hreg; destruct o; try exact Hc.
  - apply setLook_frame; assumption.
  - apply setLook_frame; assumption.
  - apply update_frame; assumption.
Qed.

Lemma run_frame (os : list NA3DCamera.op) :
  forall c : NA3DCamera.t, frame_ok c -> regular_run c os -> frame_ok (NA3DCamera.run c os).
Proof.
  induction os as [| o os IH]; intros c Hc Hreg.
  - exact Hc.
  - destruct Hreg as (Ho & Hrest).
    apply (IH (NA3DCamera.apply c o)); [apply apply_frame; assumption | exact Hrest].
Qed.

(** ** Horizontal rotation *)

Lemma actuallyRotateLeft_vectors c r :
  look (NA3DCamera.actuallyRotateLeft c r)
  = (if Utils.isZero r then look c else Vector3.rotateAbout (look c) (pedestal c) r) /\
  right (NA3DCamera.actuallyRotateLeft c r)
  = (if Utils.isZero r then right c
     else Vector3.normalize
            (Vector3.cross (Vector3.rotateAbout (look c) (pedestal c) r) (pedestal c))).
Proof. frame. Qed.

Lemma quarter_turn_about_UP :
  Vector3.rotateAbout (Vector3.mk 0 (-1) 0) (Vector3.mk 0 0 1) (PI / 2) = Vector3.mk 1 0 0.
Proof.
  assert (Hb : Vector3.dot (Vector3.mk 0 0 1) (Vector3.mk 0 0 1) = 1)
    by (unfold Vector3.dot; simpl; ring).
  assert (Hab : Vector3.dot (Vector3.mk 0 (-1) 0) (Vector3.mk 0 0 1) = 0)
    by (unfold Vector3.dot; simpl; ring).
  destruct (orthogonal_parts _ _ Hb Hab) as (Hpar & Horth).
  rewrite rotateAbout_unit_axis; auto.
  - rewrite Hpar, Horth, cos_PI2, sin_PI2; apply vec_ext; simpl; ring.
  - rewrite Horth.
    replace (Vector3.norm (Vector3.mk 0 (-1) 0)) with 1.
    + pose proof epsilon_small; lra.
    + symmetry; apply norm_unit; unfold Vector3.dot; simpl; ring.
Qed.

(** The horizontal step of the end-to-end scenario. *)
Lemma quarter_turn_step :
  let c1 := NA3DCamera.rotateLeft standardCamera (PI / 2) in
  NA3DCamera.updateX c1 = NA3DCamera.actuallyRotateLeft c1 (PI / 2) /\
  Utils.isZero (PI / 2) = false /\
  look (NA3DCamera.updateX c1) = Vector3.mk 1 0 0 /\
  right (NA3DCamera.updateX c1) = Vector3.mk 0 (-1) 0 /\
  pedestal (NA3DCamera.updateX c1) = Vector3.mk 0 0 1 /\
  angleSteps c1 = NA3DCamera.updateX c1.
Proof.
  cbv zeta.
  set (c1 := NA3DCamera.rotateLeft standardCamera (PI / 2)).
  destruct standardCamera_fields as (Hped & Hlook & _ & _ & Hx & Htx & _).
  assert (Hstep : NA3DCamera.updateX c1 = NA3DCamera.actuallyRotateLeft c1 (PI / 2)).
  { unfold NA3DCamera.updateX, NA3DCamera.setXangle; f_equal.
    change (xAng c1) with (xAng standardCamera).
    change (targetXang c1) with (targetXang standardCamera + PI / 2).
    change (t_ c1) with 1.
    rewrite Hx, Htx; unfold Utils.lerp; ring. }
  assert (Hnz : Utils.isZero (PI / 2) = false).
  { apply isZero_false; pose proof PI2_1; pose proof epsilon_small.
    rewrite Rabs_pos_eq; lra. }
  destruct (actuallyRotateLeft_vectors c1 (PI / 2)) as (Hl & Hr).
  rewrite Hnz in Hl, Hr.
  change (look c1) with (look standardCamera) in Hl, Hr.
  change (pedestal c1) with (pedestal standardCamera) in Hl, Hr.
  rewrite Hlook, Hped, quarter_turn_about_UP in Hl, Hr.
  rewrite normalize_unit in Hr by (unfold Vector3.dot; simpl; ring).
  split; [exact Hstep |]; split; [exact Hnz |].
  rewrite Hstep, Hl, Hr.
  repeat split.
  - apply vec_ext; simpl; ring.
  - rewrite (proj2 (proj2 (proj2 (proj2 (actuallyRotateLeft_angles c1 (PI / 2)))))).
    exact Hped.
  - rewrite <- Hstep, angleSteps_no_inclination by reflexivity.
    apply updateY_idle.
    destruct (updateX_controls c1) as (_ & _ & _ & _ & _ & -> & _).
    destruct (updateX_angles c1) as (_ & -> & _).
    reflexivity.
Qed.

Lemma aOrth_norm_cross (l p : Vector3.t) :
  Vector3.dot p p = 1 ->
  Vector3.norm (aOrth l p) = Vector3.norm (Vector3.cross l p).
Proof.
  intros Hp; rewrite !norm_dot; f_equal; rewrite lagrange.
  unfold aOrth, aParallel; rewrite Hp.
  destruct l as [lx ly lz], p as [px py pz].
  unfold Vector3.dot, Vector3.times, Vector3.increasedBy in *; simpl in *.
  unfold Rdiv; rewrite Rinv_1, !Rmult_1_r; nsatz.
Qed.

Lemma rodrigues_dot_right (l p rt : Vector3.t) (n co si : R) :
  Vector3.dot p p = 1 -> Vector3.dot rt rt = 1 ->
  Vector3.dot rt l = 0 -> Vector3.dot rt p = 0 ->
  Vector3.cross l p = Vector3.times rt n ->
  Vector3.dot
    (Vector3.increasedBy
       (Vector3.increasedBy (Vector3.times (aOrth l p) co)
          (Vector3.times (Vector3.cross p (aOrth l p)) si))
       (aParallel l p)) rt
  = - si * n.
Proof.
  intros Hp Hr Hrl Hrp Hcross.
  unfold aOrth, aParallel; rewrite Hp.
  destruct l as [lx ly lz], p as [px py pz], rt as [rx ry rz].
  unfold Vector3.dot, Vector3.cross, Vector3.times, Vector3.increasedBy in *; simpl in *.
  injection Hcross as H1 H2 H3.
  unfold Rdiv; rewrite Rinv_1, !Rmult_1_r; nsatz.
Qed.

(** For every well-formed camera, the horizontal step turns look by the
    delta it is given, unchanged in sign, and the turned look vector leans
    to the side opposite to [right] in proportion to the sine of the delta. *)
Lemma actuallyRotateLeft_leans_from_right (c : NA3DCamera.t) (r : R) :
  frame_ok c -> Utils.isZero r = false ->
  look (NA3DCamera.actuallyRotateLeft c r) = Vector3.rotateAbout (look c) (pedestal c) r /\
  Vector3.dot (look (NA3DCamera.actuallyRotateLeft c r)) (right c)
  = - sin r * Vector3.norm (Vector3.cross (look c) (pedestal c)).
Proof.
  intros Hc Hr.
  destruct (actuallyRotateLeft_vectors c r) as (Hl & _); rewrite Hr in Hl.
  split; [exact Hl |]; rewrite Hl.
  apply frame_ok_elim in Hc; destruct Hc as (Hll & Hpp & Hz & Hright & _).
  destruct (frame_facts _ _ _ Hll Hpp Hz Hright) as (Hrr & Hrl & Hrp & Hn & Hcross).
  rewrite rotateAbout_unit_axis; auto.
  - apply rodrigues_dot_right; assumption.
  - rewrite aOrth_norm_cross by exact Hpp.
    apply Rlt_le, not_isZero_norm, Hz.
Qed.

(** C1, on the code.  On the camera of the end-to-end scenario,
    [rotateLeft(PI/2)] followed by [update()] applies the delta [+PI/2]
    itself as the rotation of look about the pedestal: look goes from
    [(0, -1, 0)] to [(1, 0, 0)], the opposite of the right vector
    [(-1, 0, 0)].  A positive delta is a positive rotation about the
    pedestal and turns the view away from the right vector. *)
Theorem quarter_turn_faces_away_from_right :
  let c := NA3DCamera.run standardCamera
             [NA3DCamera.RotateLeft (PI / 2); NA3DCamera.Update] in
  look standardCamera = Vector3.mk 0 (-1) 0 /\
  right standardCamera = Vector3.mk (-1) 0 0 /\
  look c = Vector3.rotateAbout (look standardCamera) (pedestal standardCamera) (PI / 2) /\
  look c = Vector3.mk 1 0 0 /\
  look c = Vector3.opposite (right standardCamera) /\
  Vector3.dot (look c) (right standardCamera) = -1.
Proof.
  cbv zeta.
  destruct standardCamera_fields as (Hped & Hlook & Hright & _).
  destruct quarter_turn_step as (_ & _ & Hl & _ & _ & Hsteps).
  change (look (NA3DCamera.run standardCamera
                  [NA3DCamera.RotateLeft (PI / 2); NA3DCamera.Update]))
    with (look (angleSteps (NA3DCamera.rotateLeft standardCamera (PI / 2)))).
  rewrite Hsteps, Hl, Hlook, Hright, Hped, quarter_turn_about_UP.
  repeat split; try reflexivity.
  - apply vec_ext; simpl; ring.
  - unfold Vector3.dot; simpl; ring.
Qed.

(** ** The frame invariant *)

Lemma cross_after_quarter_turn :
  Vector3.cross (Vector3.mk 1 0 0) (Vector3.mk 0 0 1) = Vector3.mk 0 (-1) 0.
Proof. apply vec_ext; simpl; ring. Qed.

Lemma quarter_turn_regular :
  regular_run standardCamera [NA3DCamera.RotateLeft (PI / 2); NA3DCamera.Update].
Proof.
  split; [exact I |]; split; [| exact I].
  change (update_regular (NA3DCamera.rotateLeft standardCamera (PI / 2))).
  destruct quarter_turn_step as (_ & _ & Hl & Hr & Hp & Hsteps).
  set (c1 := NA3DCamera.rotateLeft standardCamera (PI / 2)) in *.
  assert (HY : NA3DCamera.updateY (NA3DCamera.updateX c1) = NA3DCamera.updateX c1).
  { apply updateY_idle.
    destruct (updateX_controls c1) as (_ & _ & _ & _ & _ & -> & _).
    destruct (updateX_angles c1) as (_ & -> & _).
    reflexivity. }
  assert (HR : NA3DCamera.updateR (NA3DCamera.updateX c1) = NA3DCamera.updateX c1).
  { apply updateR_idle.
    destruct (updateX_controls c1) as (_ & _ & _ & _ & _ & _ & -> & _).
    destruct (updateX_angles c1) as (_ & _ & -> & _).
    reflexivity. }
  assert (Hnz : Vector3.isZero (Vector3.mk 0 (-1) 0) = false)
    by (apply unit_not_isZero; unfold Vector3.dot; simpl; ring).
  unfold update_regular; cbv zeta.
  rewrite HY, HR, Hl, Hr, Hp, cross_after_quarter_turn.
  repeat split; auto.
  unfold Vector3.dot; simpl; lra.
Qed.

(** C2, as the code has it.  For a camera built from a unit pedestal and a
    unit look that are not within epsilon of collinear, after any sequence
    of public mutators that is regular (a look request is neither zero nor
    collinear with the pedestal; no tick brings look within epsilon of
    collinear with the pedestal or carries it across the pedestal axis),
    [right], [up] and [look] are pairwise orthogonal unit vectors with
    [right = normalize(cross(look, pedestal))] and [up = cross(right, look)]. *)
Theorem frame_orthonormal_after_regular_mutators :
  forall (position_ pedestal_ look_ : Vector3.t) (xAng_ maxAbsUpAng : R)
         (os : list NA3DCamera.op),
    isUnit pedestal_ -> isUnit look_ ->
    Vector3.isZero
      (Vector3.cross (NA3DCamera.changeHand look_) (NA3DCamera.changeHand pedestal_)) = false ->
    regular_run (NA3DCamera.new position_ pedestal_ look_ xAng_ maxAbsUpAng) os ->
    let c := NA3DCamera.run (NA3DCamera.new position_ pedestal_ look_ xAng_ maxAbsUpAng) os in
    orthonormal (right c) (up c) (look c) /\
    right c = Vector3.normalize (Vector3.cross (look c) (pedestal c)) /\
    up c = Vector3.cross (right c) (look c).
Proof.
  intros position_ pedestal_ look_ xAng_ maxAbsUpAng os Hp Hl Hz Hreg c.
  assert (Hc : frame_ok c).
  { apply run_frame; [apply new_frame; assumption | exact Hreg]. }
  split; [apply frame_ok_orthonormal, Hc |].
  destruct Hc as (_ & _ & _ & Hr & Hu); split; assumption.
Qed.

Lemma frame_orthonormal_after_regular_mutators_witness :
  let c := NA3DCamera.run standardCamera
             [NA3DCamera.RotateLeft (PI / 2); NA3DCamera.Update] in
  orthonormal (right c) (up c) (look c).
Proof.
  cbv zeta.
  assert (Hp : isUnit (Vector3.mk 0 0 1))
    by (apply norm_unit; unfold Vector3.dot; simpl; ring).
  assert (Hl : isUnit (Vector3.mk 0 1 0))
    by (apply norm_unit; unfold Vector3.dot; simpl; ring).
  assert (Hz : Vector3.isZero
                 (Vector3.cross (NA3DCamera.changeHand (Vector3.mk 0 1 0))
                    (NA3DCamera.changeHand (Vector3.mk 0 0 1))) = false).
  { apply unit_not_isZero; unfold Vector3.dot; simpl; ring. }
  exact (proj1 (frame_orthonormal_after_regular_mutators
                  (Vector3.mk 0 0 0) (Vector3.mk 0 0 1) (Vector3.mk 0 1 0) 0
                  NA3DCamera.defaultMaxAbsUpAng
                  [NA3DCamera.RotateLeft (PI / 2); NA3DCamera.Update]
                  Hp Hl Hz quarter_turn_regular)).
Defined.

(** C2, as stated, fails on the code: after [setLook] along the pedestal
    the cross product of look and pedestal is zero, [normalize] leaves it
    zero, and [right] is the zero vector, not a unit vector. *)
Lemma frame_collapses_along_pedestal :
  let c := NA3DCamera.run standardCamera [NA3DCamera.SetLook (Vector3.mk 0 0 1)] in
  isUnit (Vector3.mk 0 0 1) /\ isUnit (Vector3.mk 0 1 0) /\
  look c = Vector3.mk 0 0 1 /\ pedestal c = Vector3.mk 0 0 1 /\
  right c = Vector3.mk 0 0 0 /\ ~ isUnit (right c).
Proof.
  cbv zeta.
  destruct standardCamera_fields as (Hped & _).
  assert (Hlook : Vector3.normalize (NA3DCamera.changeHand (Vector3.mk 0 0 1))
                  = Vector3.mk 0 0 1).
  { rewrite normalize_unit; [apply vec_ext; simpl; ring | unfold Vector3.dot; simpl; ring]. }
  assert (Hright : right (NA3DCamera.run standardCamera [NA3DCamera.SetLook (Vector3.mk 0 0 1)])
                   = Vector3.mk 0 0 0).
  { change (right (NA3DCamera.run standardCamera [NA3DCamera.SetLook (Vector3.mk 0 0 1)]))
      with (Vector3.normalize
              (Vector3.cross (Vector3.normalize (NA3DCamera.changeHand (Vector3.mk 0 0 1)))
                 (pedestal standardCamera))).
    rewrite Hlook, Hped.
    replace (Vector3.cross (Vector3.mk 0 0 1) (Vector3.mk 0 0 1)) with (Vector3.mk 0 0 0)
      by (apply vec_ext; simpl; ring).
    unfold Vector3.normalize, Vector3.isZero; simpl; now rewrite isZero_0. }
  repeat split.
  - apply norm_unit; unfold Vector3.dot; simpl; ring.
  - apply norm_unit; unfold Vector3.dot; simpl; ring.
  - exact Hlook.
  - exact Hped.
  - exact Hright.
  - rewrite Hright; unfold isUnit; rewrite norm_Z; lra.
Qed.

(** Why the frame invariant needs a vertical step that does not carry look
    across the pedestal axis: [#actuallyRotateUp] does not recompute
    [right].  With a clamp wider than a half turn, [rotateUp(PI)] and
    [update()] turn look over the pole; the frame stays orthonormal but
    [right] is then the opposite of [normalize(cross(look, pedestal))]. *)
Lemma right_stale_across_pole :
  let c := NA3DCamera.run wideCamera [NA3DCamera.RotateUp PI; NA3DCamera.Update] in
  look c = Vector3.mk 0 1 0 /\ pedestal c = Vector3.mk 0 0 1 /\
  right c = Vector3.mk (-1) 0 0 /\
  Vector3.normalize (Vector3.cross (look c) (pedestal c)) = Vector3.mk 1 0 0.
Proof.
  cbv zeta.
  pose proof PI_gt_3 as Hpi3; pose proof PI_4 as Hpi4; pose proof epsilon_small as He.
  destruct (levelCamera_fields 5)
    as (Hped & Hlook & Hright & _ & _ & _ & Hy & Hty & Hmax & Hmin).
  fold wideCamera in Hped, Hlook, Hright, Hy, Hty, Hmax, Hmin.
  set (c1 := NA3DCamera.rotateUp wideCamera PI).
  change (NA3DCamera.run wideCamera [NA3DCamera.RotateUp PI; NA3DCamera.Update])
    with (NA3DCamera.update c1).
  assert (Ht1 : targetYang c1 = PI).
  { change (targetYang c1)
      with (Utils.clamp (minUpAng wideCamera) (targetYang wideCamera + PI)
              (maxUpAng wideCamera)).
    rewrite Hty, Hmax, Hmin; unfold Utils.clamp.
    rewrite (proj2 (Rleb_false _ _)) by lra.
    rewrite (proj2 (Rleb_false _ _)) by lra.
    ring. }
  assert (Hsteps : angleSteps c1 = NA3DCamera.actuallyRotateUp c1 PI).
  { rewrite angleSteps_no_inclination by reflexivity.
    rewrite (updateX_idle c1) by reflexivity.
    unfold NA3DCamera.updateY, NA3DCamera.setYangle; f_equal.
    change (yAng c1) with (yAng wideCamera); change (t_ c1) with 1.
    rewrite Ht1, Hy; unfold Utils.lerp; ring. }
  assert (Hl : look (NA3DCamera.update c1) = Vector3.mk 0 1 0).
  { change (look (NA3DCamera.update c1)) with (look (angleSteps c1)).
    rewrite Hsteps, actuallyRotateUp_look.
    change (yAng c1) with (yAng wideCamera); change (maxUpAng c1) with (maxUpAng wideCamera).
    change (minUpAng c1) with (minUpAng wideCamera).
    change (look c1) with (look wideCamera); change (right c1) with (right wideCamera).
    rewrite Hy, Hmax, Hmin, Hlook, Hright.
    rewrite (proj2 (isZero_false PI)) by (rewrite Rabs_pos_eq; lra).
    rewrite (proj2 (Rltb_false _ _)) by lra.
    rewrite (proj2 (Rltb_false _ _)) by lra.
    rewrite rotateAboutOrthogonal_not_zero
      by (apply unit_not_isZero; unfold Vector3.dot; simpl; ring).
    rewrite cos_PI, sin_PI; apply vec_ext; simpl; ring. }
  assert (Hp : pedestal (NA3DCamera.update c1) = Vector3.mk 0 0 1).
  { rewrite update_still_pedestal by reflexivity; exact Hped. }
  assert (Hr : right (NA3DCamera.update c1) = Vector3.mk (-1) 0 0).
  { change (right (NA3DCamera.update c1)) with (right (angleSteps c1)).
    rewrite Hsteps.
    rewrite (proj2 (proj2 (proj2 (proj2 (proj2 (actuallyRotateUp_angles c1 PI)))))).
    exact Hright. }
  rewrite Hl, Hp, Hr; repeat split.
  rewrite normalize_unit; [apply vec_ext; simpl; ring | unfold Vector3.dot; simpl; ring].
Qed.
